(** * SCRAM-SHA-1 / SCRAM-SHA-256 client of the MongoDB driver

    A shallow embedding of the SCRAM authentication provider (the class
    [ScramSHA] and the functions behind it): the attribute-pair parser, the password digest, the XOR and digest
    comparison helpers, the salted-password cache [HI] and the conversation
    driven by [executeScram] / [continueScramConversation].

    Conventions of the embedding.
    - A [Buffer] is a list of byte values kept as [Z] (0..255).
    - A JavaScript string is a [string]: a sequence of code units, each
      below 256.  This is exact for the server payloads, which
      [Binary.value()] delivers as a latin1 string, and restricts
      credentials to Latin-1 text.
    - A function that can throw returns a [Completion].
    - The module-level cache [_hiCache] / [_hiCacheCount] is threaded
      explicitly as an [HICache] state.
    - The connection is a log of the submitted commands together with the
      server that answers them.
    - Node's [crypto] module, [saslprep], the base64 / utf8 decoders of
      [Buffer] and [Binary.value()] are not part of the file; they are the
      fields of the [Runtime] interface. *)

From Stdlib Require Import ZArith Ascii String List Lia Bool.
From stdpp Require Import base option list gmap strings pretty.

Import ListNotations.
Local Open Scope string_scope.
Local Open Scope list_scope.
Local Open Scope Z_scope.

(** ** Bytes, buffers and text *)

Abbreviation Buffer := (list Z) (only parsing).

Definition code (c : ascii) : Z := Z.of_N (N_of_ascii c).
Definition chr (z : Z) : ascii := ascii_of_N (Z.to_N z).

(** [Buffer.from(s, 'utf8')] for a string whose code units are below 256:
    one byte below 0x80, two bytes from 0x80 to 0xFF. *)
Definition utf8_char (c : ascii) : Buffer :=
  let z := code c in
  if z <? 128 then [z]
  else [Z.lor 192 (Z.shiftr z 6); Z.lor 128 (Z.land z 63)].

Fixpoint utf8_encode (s : string) : Buffer :=
  match s with
  | EmptyString => []
  | String c r => utf8_char c ++ utf8_encode r
  end.

(** The base64 alphabet of [buf.toString('base64')]. *)
Definition b64_alphabet : string :=
  "ABCDEFGHIJKLMNOPQRSTUVWXYZabcdefghijklmnopqrstuvwxyz0123456789+/".

Definition b64_char (z : Z) : ascii :=
  match String.get (Z.to_nat (Z.land z 63)) b64_alphabet with
  | Some c => c
  | None => "="%char
  end.

(** [buf.toString('base64')]: three bytes give four characters, the tail
    is padded with [=]. *)
Fixpoint toString_base64 (b : Buffer) : string :=
  match b with
  | [] => ""
  | [x] =>
      String (b64_char (Z.shiftr x 2))
        (String (b64_char (Z.shiftl (Z.land x 3) 4)) "==")
  | [x; y] =>
      String (b64_char (Z.shiftr x 2))
        (String (b64_char (Z.lor (Z.shiftl (Z.land x 3) 4) (Z.shiftr y 4)))
           (String (b64_char (Z.shiftl (Z.land y 15) 2)) "="))
  | x :: y :: z :: r =>
      String (b64_char (Z.shiftr x 2))
        (String (b64_char (Z.lor (Z.shiftl (Z.land x 3) 4) (Z.shiftr y 4)))
           (String (b64_char (Z.lor (Z.shiftl (Z.land y 15) 2) (Z.shiftr z 6)))
              (String (b64_char (Z.land z 63)) (toString_base64 r))))
  end.

(** ** Errors and completions *)

Inductive CryptoMethod := sha1 | sha256.

(** A JavaScript number as [parseInt] produces it. *)
Inductive JSNumber := NaN | Num (z : Z).

(** A value whose [typeof] is inspected. *)
Inductive JSValue := JSString (s : string) | JSOther.

Definition UniversalError := string.

Inductive Payload :=
| PayloadBuffer (b : Buffer)   (* a raw [Buffer] *)
| PayloadBinary (b : Buffer).  (* a BSON [Binary] *)

(** A reply document of the server, with the fields the provider reads. *)
Record Document := mkDocument {
  payload : option Payload;
  conversationId : option Z;
  done : option bool;
  dollar_err : option string;   (* [$err] *)
  errmsg : option string
}.

(** The errors of the provider.  Each [MongoError] is kept with the data
    its message is built from:
    - [NoNonceExecute]: 'AuthContext must contain a valid nonce property'
    - [NoNonceContinue]: 'Unable to continue SCRAM without valid nonce'
    - [InvalidIterationCount n]: 'Server returned an invalid iteration count n'
    - [InvalidNonce r]: 'Server returned an invalid nonce: r'
    - [InvalidSignature]: 'Server returned an invalid signature'
    - [UsernameNotString], [PasswordNotString], [PasswordEmpty]: the three
      errors of [passwordDigest]
    - [ServerError r]: [new MongoError(r)] of [resolveError]
    - [TransportError e]: the error the connection passed to the callback
    - [TypeError]: a property read or call on [undefined]
    - [ExternalError]: an exception of a library function. *)
Inductive Error :=
| NoNonceExecute
| NoNonceContinue
| InvalidIterationCount (n : Z)
| InvalidNonce (r : string)
| InvalidSignature
| UsernameNotString
| PasswordNotString
| PasswordEmpty
| ServerError (r : Document)
| TransportError (e : UniversalError)
| TypeError (what : string)
| ExternalError (what : string).

Inductive Completion (A : Type) :=
| Normal (a : A)
| Throw (e : Error).
Arguments Normal {A} a.
Arguments Throw {A} e.

(** ** The external runtime *)

Class Runtime := {
  (** [crypto.createHash('md5').update(s, 'utf8').digest('hex')] *)
  md5_hex : string -> string;
  (** [crypto.createHash(method).update(text).digest()] *)
  createHash : CryptoMethod -> Buffer -> Buffer;
  (** [crypto.createHmac(method, key).update(text).digest()] *)
  createHmac : CryptoMethod -> Buffer -> string -> Buffer;
  (** [crypto.pbkdf2Sync(data, salt, iterations, keylen, digest)] *)
  pbkdf2Sync : string -> Buffer -> JSNumber -> Z -> CryptoMethod -> Completion Buffer;
  (** [crypto.timingSafeEqual], when the runtime has it *)
  timingSafeEqual : option (Buffer -> Buffer -> bool);
  (** the optional [saslprep] module *)
  saslprep : option (string -> Completion string);
  (** [Buffer.from(s, 'base64')] *)
  from_base64 : string -> Buffer;
  (** [buf.toString()] *)
  toString_utf8 : Buffer -> string;
  (** [Binary.value()] *)
  binary_value : Buffer -> string
}.

(** ** Helpers: [xor], [compareDigest], [parsePayload], [passwordDigest] *)

(** An argument of [xor]: a [Buffer], or something [Buffer.from] has to
    convert (a string). *)
Inductive BufferLike :=
| IsBuffer (b : Buffer)
| IsString (s : string).

(** [if (!Buffer.isBuffer(a)) a = Buffer.from(a)] *)
Definition toBuffer (a : BufferLike) : Buffer :=
  match a with
  | IsBuffer b => b
  | IsString s => utf8_encode s
  end.

(** [a[i]] as the operand of a bit operation: [undefined] counts as 0. *)
Definition at_int32 (a : Buffer) (i : nat) : Z := default 0 (a !! i).

(** The array [res] of [xor] before it is made a Buffer. *)
Definition xor_res (a b : Buffer) : list Z :=
  let length := Nat.max (length a) (length b) in
  (fun i => Z.lxor (at_int32 a i) (at_int32 b i)) <$> seq 0 length.

(** [Buffer.from(res)] keeps the low eight bits of each entry. *)
Definition Buffer_from_array (res : list Z) : Buffer :=
  (fun x => Z.land x 255) <$> res.

(** The Buffer [Buffer.from(res)] that [xor] prints. *)
Definition xor_buffer (a b : BufferLike) : Buffer :=
  let a := toBuffer a in
  let b := toBuffer b in
  Buffer_from_array (xor_res a b).

Definition xor (a b : BufferLike) : string :=
  toString_base64 (xor_buffer a b).

(** The fallback loop of [compareDigest]. *)
Definition compareDigest_loop (lhs rhs : Buffer) : Z :=
  fold_left (fun result i => Z.lor result (Z.lxor (at_int32 lhs i) (at_int32 rhs i)))
    (seq 0 (length lhs)) 0.

Definition compareDigest `{Runtime} (lhs rhs : Buffer) : bool :=
  if negb (length lhs =? length rhs)%nat then false
  else match timingSafeEqual with
       | Some f => f lhs rhs
       | None => compareDigest_loop lhs rhs =? 0
       end.

(** [s.split(sep)] for a separator of one character. *)
Fixpoint split (sep : ascii) (s : string) : list string :=
  match s with
  | EmptyString => [""]
  | String c r =>
      if Ascii.eqb c sep then "" :: split sep r
      else match split sep r with
           | x :: xs => String c x :: xs
           | [] => [String c ""]
           end
  end.

(** The object [dict]: a property holds a string or [undefined]; reading
    a property that was never written gives [undefined] too.  (Only own
    properties are modelled; the provider reads [i], [s], [r] and [v],
    none of which is inherited.) *)
Definition dict_get (dict : gmap string (option string)) (k : string) : option string :=
  match dict !! k with
  | Some v => v
  | None => None
  end.

Definition parsePayload_step (dict : gmap string (option string)) (part : string)
  : gmap string (option string) :=
  let valueParts := split "="%char part in
  <[ default "" (valueParts !! 0%nat) := valueParts !! 1%nat ]> dict.

Definition parsePayload (payload : string) : gmap string (option string) :=
  let parts := split ","%char payload in
  fold_left parsePayload_step parts ∅.

Definition passwordDigest `{Runtime} (username password : JSValue) : Completion string :=
  match username with
  | JSOther => Throw UsernameNotString
  | JSString username =>
      match password with
      | JSOther => Throw PasswordNotString
      | JSString password =>
          if (String.length password =? 0)%nat then Throw PasswordEmpty
          else Normal (md5_hex (username +:+ ":mongo:" +:+ password))
      end
  end.

(** ** [parseInt(x, 10)] *)

(** White space among the code units below 256. *)
Definition is_whitespace (c : ascii) : bool :=
  let z := code c in
  (z =? 9) || (z =? 10) || (z =? 11) || (z =? 12) || (z =? 13) || (z =? 32) || (z =? 160).

Fixpoint trim_start (s : string) : string :=
  match s with
  | EmptyString => ""
  | String c r => if is_whitespace c then trim_start r else s
  end.

Definition digit (c : ascii) : option Z :=
  let z := code c in
  if (48 <=? z) && (z <=? 57) then Some (z - 48) else None.

(** The value of the longest prefix of decimal digits, [None] when it is
    empty. *)
Fixpoint parse_digits (s : string) (acc : option Z) : option Z :=
  match s with
  | EmptyString => acc
  | String c r =>
      match digit c with
      | Some d => parse_digits r (Some (10 * default 0 acc + d))
      | None => acc
      end
  end.

(** [parseInt(v, 10)]; [undefined] is converted to the text "undefined".
    Integers are exact here (JavaScript rounds beyond 2^53). *)
Definition parseInt (v : option string) : JSNumber :=
  let inputString := default "undefined" v in
  let trimmed := trim_start inputString in
  let '(sign, digits) :=
    match trimmed with
    | String "-" r => (-1, r)
    | String "+" r => (1, r)
    | _ => (1, trimmed)
    end in
  match parse_digits digits None with
  | None => NaN
  | Some n => Num (sign * n)
  end.

(** The condition [iterations && iterations < 4096]: a number that is
    neither [NaN] nor zero, and below 4096. *)
Definition weak_iterations (iterations : JSNumber) : bool :=
  match iterations with
  | Num n => negb (n =? 0) && (n <? 4096)
  | NaN => false
  end.

(** A number as [join] prints it (decimal for the integers below 10^21). *)
Definition number_toString (n : JSNumber) : string :=
  match n with
  | NaN => "NaN"
  | Num z => pretty z
  end.

(** ** Message building *)

(** [s.replace(c, by)] with a pattern of one character: only the first
    occurrence is replaced. *)
Fixpoint replace_first (c : ascii) (by_ : string) (s : string) : string :=
  match s with
  | EmptyString => ""
  | String x r =>
      if Ascii.eqb x c then by_ +:+ r else String x (replace_first c by_ r)
  end.

Definition cleanUsername (username : string) : string :=
  replace_first ","%char "=2C" (replace_first "="%char "=3D" username).

Definition clientFirstMessageBare (username : string) (nonce : Buffer) : Buffer :=
  utf8_encode "n=" ++ utf8_encode username ++ utf8_encode ",r="
    ++ utf8_encode (toString_base64 nonce).

Record MongoCredentials := mkCredentials {
  username : string;
  password : string;
  source : string
}.

(** The two commands of the conversation.  [SaslStart] stands for
    [{saslStart: 1, mechanism, payload, autoAuthorize: 1,
      options: {skipEmptyExchange: true}}] and [SaslContinue] for
    [{saslContinue: 1, conversationId, payload}]. *)
Inductive Command :=
| SaslStart (mechanism : string) (payload : Payload)
| SaslContinue (conversationId : option Z) (payload : Payload).

Definition makeFirstMessage (cryptoMethod : CryptoMethod)
    (credentials : MongoCredentials) (nonce : Buffer) : Command :=
  let username := cleanUsername (username credentials) in
  let mechanism :=
    match cryptoMethod with sha1 => "SCRAM-SHA-1" | sha256 => "SCRAM-SHA-256" end in
  SaslStart mechanism
    (PayloadBinary (utf8_encode "n,," ++ clientFirstMessageBare username nonce)).

(** ** The salted-password cache *)

Record HICache := mkHICache {
  _hiCache : gmap string Buffer;
  _hiCacheCount : Z
}.

Definition _hiCachePurge : HICache :=
  {| _hiCache := ∅; _hiCacheCount := 0 |}.

Definition hiLengthMap (m : CryptoMethod) : Z :=
  match m with sha256 => 32 | sha1 => 20 end.

Definition HI_key (data : string) (salt : Buffer) (iterations : JSNumber) : string :=
  String.concat "_" [data; toString_base64 salt; number_toString iterations].

Definition HI `{Runtime} (st : HICache) (data : string) (salt : Buffer)
    (iterations : JSNumber) (cryptoMethod : CryptoMethod)
  : Completion Buffer * HICache :=
  let key := HI_key data salt iterations in
  match _hiCache st !! key with
  | Some cached => (Normal cached, st)
  | None =>
      match pbkdf2Sync data salt iterations (hiLengthMap cryptoMethod) cryptoMethod with
      | Throw e => (Throw e, st)
      | Normal saltedData =>
          let st := if 200 <=? _hiCacheCount st then _hiCachePurge else st in
          (Normal saltedData,
           {| _hiCache := <[key := saltedData]> (_hiCache st);
              _hiCacheCount := _hiCacheCount st + 1 |})
      end
  end.

Definition H `{Runtime} (method : CryptoMethod) (text : Buffer) : Buffer :=
  createHash method text.

Definition HMAC `{Runtime} (method : CryptoMethod) (key : Buffer) (text : string) : Buffer :=
  createHmac method key text.

(** ** The connection *)

Record CommandResult := mkCommandResult {
  result : option Document
}.

(** What the connection passes to the callback of [command]: [(_err, result)]. *)
Record Reply := mkReply {
  reply_err : option UniversalError;
  reply_result : option CommandResult
}.

(** The connection: the commands submitted so far, oldest first, and the
    server, which answers a command knowing everything submitted. *)
Record Connection := mkConnection {
  sent : list (string * Command);
  server : list (string * Command) -> Reply
}.

(** [connection.command(ns, cmd, callback)]: the command is appended to
    the log and the reply is what the callback receives. *)
Definition command (c : Connection) (ns : string) (cmd : Command) : Connection * Reply :=
  let log := sent c ++ [(ns, cmd)] in
  ({| sent := log; server := server c |}, server c log).

Record HandshakeResponse := mkHandshakeResponse {
  speculativeAuthenticate : option Document
}.

Record AuthContext := mkAuthContext {
  connection : Connection;
  credentials : MongoCredentials;
  nonce : option Buffer;
  response : option HandshakeResponse
}.

(** The second argument the callback receives. *)
Inductive CallbackResult :=
| ResUndefined
| ResFalse
| ResDocument (r : Document)
| ResCommandResult (r : CommandResult).

(** How an entry point ends: the callback is called with [(err, result)],
    or an exception escapes. *)
Inductive Outcome :=
| Called (err : option Error) (res : CallbackResult)
| Thrown (e : Error).

(** A string in a boolean context. *)
Definition truthy (v : option string) : bool :=
  match v with
  | Some s => negb (String.eqb s "")
  | None => false
  end.

Definition resolveError (err : option UniversalError) (result_ : option CommandResult)
  : Completion (option Error) :=
  match err with
  | Some e => Normal (Some (TransportError e))
  | None =>
      match result_ with
      | Some res =>
          match result res with
          | None => Throw (TypeError "r.$err")
          | Some r =>
              if truthy (dollar_err r) || truthy (errmsg r)
              then Normal (Some (ServerError r))
              else Normal None
          end
      | None => Normal None
      end
  end.

(** The callback a command is given directly: it receives the reply as it is. *)
Definition pass_reply (reply : Reply) : Outcome :=
  Called (TransportError <$> reply_err reply)
    (match reply_result reply with
     | Some r => ResCommandResult r
     | None => ResUndefined
     end).

(** ** The conversation *)

(** A step of an entry point either goes on with a value or ends the
    entry point with an outcome. *)
Inductive Step (A : Type) :=
| Go (a : A)
| Stop (o : Outcome).
Arguments Go {A} a.
Arguments Stop {A} o.

Section Conversation.
Context `{Runtime}.

(** The callback of the first [saslContinue] (the closure over [db] and
    [serverSignature]). *)
Definition saslContinueCallback (connection : Connection) (db : string)
    (serverSignature : Buffer) (reply : Reply) : Outcome * Connection :=
  match resolveError (reply_err reply) (reply_result reply) with
  | Throw e => (Thrown e, connection)
  | Normal (Some err) => (Called (Some err) ResUndefined, connection)
  | Normal None =>
      match reply_result reply with
      | None => (Thrown (TypeError "result.result"), connection)
      | Some result_ =>
          match result result_ with
          | None => (Thrown (TypeError "r.payload"), connection)
          | Some r =>
              match payload r with
              | Some (PayloadBinary b) =>
                  let parsedResponse := parsePayload (binary_value b) in
                  match dict_get parsedResponse "v" with
                  | None => (Thrown (TypeError "Buffer.from(undefined)"), connection)
                  | Some v =>
                      if negb (compareDigest (from_base64 v) serverSignature)
                      then (Called (Some InvalidSignature) ResUndefined, connection)
                      else
                        match done r with
                        | Some false =>
                            let retrySaslContinueCmd :=
                              SaslContinue (conversationId r) (PayloadBuffer []) in
                            let '(connection, reply) :=
                              command connection (db +:+ ".$cmd") retrySaslContinueCmd in
                            (pass_reply reply, connection)
                        | _ => (Called None (ResDocument r), connection)
                        end
                  end
              | _ => (Thrown (TypeError "r.payload.value"), connection)
              end
          end
      end
  end.

(** The password as it enters [HI]: SASLprep for SHA-256 (when the module
    is there), the MongoDB digest for SHA-1.  An exception of
    [passwordDigest] is caught and handed to the callback; one of
    [saslprep] escapes. *)
Definition processPassword (cryptoMethod : CryptoMethod) (username password : string)
  : Step string :=
  match cryptoMethod with
  | sha256 =>
      match saslprep with
      | Some prep =>
          match prep password with
          | Normal processedPassword => Go processedPassword
          | Throw e => Stop (Thrown e)
          end
      | None => Go password
      end
  | sha1 =>
      match passwordDigest (JSString username) (JSString password) with
      | Normal processedPassword => Go processedPassword
      | Throw e => Stop (Called (Some e) ResUndefined)
      end
  end.

Definition continueScramConversation (cryptoMethod : CryptoMethod) (response : Document)
    (authContext : AuthContext) (st : HICache) : Outcome * Connection * HICache :=
  let connection := connection authContext in
  let credentials := credentials authContext in
  match nonce authContext with
  | None => (Called (Some NoNonceContinue) ResUndefined, connection, st)
  | Some nonce =>
  let db := source credentials in
  let username := cleanUsername (username credentials) in
  let password := password credentials in
  match processPassword cryptoMethod username password with
  | Stop outcome => (outcome, connection, st)
  | Go processedPassword =>
  match payload response with
  | None => (Thrown (TypeError "payload.value"), connection, st)
  | Some (PayloadBuffer b) | Some (PayloadBinary b) =>
  let payload_value := binary_value b in
  let dict := parsePayload payload_value in
  let iterations := parseInt (dict_get dict "i") in
  if weak_iterations iterations
  then (Called (Some (InvalidIterationCount
                        match iterations with Num n => n | NaN => 0 end))
          ResFalse, connection, st)
  else
  let salt := dict_get dict "s" in
  match dict_get dict "r" with
  | None => (Thrown (TypeError "rnonce.startsWith"), connection, st)
  | Some rnonce =>
  if String.prefix "nonce" rnonce
  then (Called (Some (InvalidNonce rnonce)) ResFalse, connection, st)
  else
  let withoutProof := "c=biws,r=" +:+ rnonce in
  match salt with
  | None => (Thrown (TypeError "Buffer.from(undefined)"), connection, st)
  | Some salt =>
  match HI st processedPassword (from_base64 salt) iterations cryptoMethod with
  | (Throw e, st) => (Thrown e, connection, st)
  | (Normal saltedPassword, st) =>
  let clientKey := HMAC cryptoMethod saltedPassword "Client Key" in
  let serverKey := HMAC cryptoMethod saltedPassword "Server Key" in
  let storedKey := H cryptoMethod clientKey in
  (* [payload.value()] is a string, whose [toString] ignores its argument *)
  let authMessage :=
    String.concat ","
      [toString_utf8 (clientFirstMessageBare username nonce); payload_value; withoutProof] in
  let clientSignature := HMAC cryptoMethod storedKey authMessage in
  let clientProof := "p=" +:+ xor (IsBuffer clientKey) (IsBuffer clientSignature) in
  let clientFinal := String.concat "," [withoutProof; clientProof] in
  let serverSignature := HMAC cryptoMethod serverKey authMessage in
  let saslContinueCmd :=
    SaslContinue (conversationId response) (PayloadBinary (utf8_encode clientFinal)) in
  let '(connection, reply) := command connection (db +:+ ".$cmd") saslContinueCmd in
  let '(outcome, connection) := saslContinueCallback connection db serverSignature reply in
  (outcome, connection, st)
  end end end end end end.

Definition with_connection (authContext : AuthContext) (c : Connection) : AuthContext :=
  {| connection := c;
     credentials := credentials authContext;
     nonce := nonce authContext;
     response := response authContext |}.

Definition executeScram (cryptoMethod : CryptoMethod) (authContext : AuthContext)
    (st : HICache) : Outcome * Connection * HICache :=
  let connection := connection authContext in
  let credentials := credentials authContext in
  match nonce authContext with
  | None => (Called (Some NoNonceExecute) ResUndefined, connection, st)
  | Some nonce =>
      let db := source credentials in
      let saslStartCmd := makeFirstMessage cryptoMethod credentials nonce in
      let '(connection, reply) := command connection (db +:+ ".$cmd") saslStartCmd in
      match resolveError (reply_err reply) (reply_result reply) with
      | Throw e => (Thrown e, connection, st)
      | Normal (Some err) => (Called (Some err) ResUndefined, connection, st)
      | Normal None =>
          match reply_result reply with
          | None => (Thrown (TypeError "result.result"), connection, st)
          | Some result_ =>
              match result result_ with
              | None => (Thrown (TypeError "response.payload"), connection, st)
              | Some r =>
                  continueScramConversation cryptoMethod r
                    (with_connection authContext connection) st
              end
          end
      end
  end.

(** [ScramSHA.auth]: continue from the speculative reply of the handshake
    when there is one, otherwise run the whole conversation. *)
Definition auth (cryptoMethod : CryptoMethod) (authContext : AuthContext)
    (st : HICache) : Outcome * Connection * HICache :=
  match response authContext with
  | Some response =>
      match speculativeAuthenticate response with
      | Some speculative =>
          continueScramConversation cryptoMethod speculative authContext st
      | None => executeScram cryptoMethod authContext st
      end
  | None => executeScram cryptoMethod authContext st
  end.

End Conversation.

(** ** A runtime to run the model on examples

    The digests below are stand-ins: they have the output lengths of the
    real ones and depend on their inputs, nothing more.  The text
    conversions are the real ones on ASCII.  The theorems hold for every
    [Runtime]; this one instantiates them. *)

Module Example.

Definition hashLen (m : CryptoMethod) : nat :=
  match m with sha1 => 20%nat | sha256 => 32%nat end.

Definition latin1 (b : Buffer) : string :=
  string_of_list_ascii (map chr b).

Definition unbase64 (c : ascii) : option Z :=
  let z := code c in
  if (65 <=? z) && (z <=? 90) then Some (z - 65)
  else if (97 <=? z) && (z <=? 122) then Some (z - 71)
  else if (48 <=? z) && (z <=? 57) then Some (z + 4)
  else if (z =? 43) || (z =? 45) then Some 62
  else if (z =? 47) || (z =? 95) then Some 63
  else None.

(** The six-bit values up to the first [=]; other characters are skipped. *)
Fixpoint sextets (s : string) : list Z :=
  match s with
  | EmptyString => []
  | String c r =>
      if Ascii.eqb c "="%char then []
      else match unbase64 c with
           | Some v => v :: sextets r
           | None => sextets r
           end
  end.

Fixpoint bytes_of_sextets (l : list Z) : Buffer :=
  match l with
  | a :: b :: c :: d :: r =>
      Z.lor (Z.shiftl a 2) (Z.shiftr b 4)
      :: Z.lor (Z.shiftl (Z.land b 15) 4) (Z.shiftr c 2)
      :: Z.lor (Z.shiftl (Z.land c 3) 6) d
      :: bytes_of_sextets r
  | [a; b; c] =>
      [Z.lor (Z.shiftl a 2) (Z.shiftr b 4);
       Z.lor (Z.shiftl (Z.land b 15) 4) (Z.shiftr c 2)]
  | [a; b] => [Z.lor (Z.shiftl a 2) (Z.shiftr b 4)]
  | _ => []
  end.

Definition decode_base64 (s : string) : Buffer := bytes_of_sextets (sextets s).

Definition digest (n : nat) (b : Buffer) : Buffer :=
  resize n 0 (Buffer_from_array (map (fun x => x + Z.of_nat (length b)) b)).

#[export] Instance runtime : Runtime := {|
  md5_hex := fun s => toString_base64 (digest 24 (utf8_encode s));
  createHash := fun m b => digest (hashLen m) b;
  createHmac := fun m key text => digest (hashLen m) (xor_res key (utf8_encode text));
  pbkdf2Sync := fun data salt iterations keylen m =>
    match iterations with
    | Num n =>
        if 1 <=? n
        then Normal (digest (Z.to_nat keylen) (utf8_encode data ++ salt))
        else Throw (ExternalError "iterations")
    | NaN => Throw (ExternalError "iterations")
    end;
  timingSafeEqual := Some (fun a b => bool_decide (a = b));
  saslprep := Some (fun s => Normal s);
  from_base64 := decode_base64;
  toString_utf8 := latin1;
  binary_value := latin1
|}.

(** A server that answers [saslStart] with a server-first message and
    every [saslContinue] with the given document. *)
Definition scripted (first final : Document) (log : list (string * Command)) : Reply :=
  match last log with
  | Some (_, SaslStart _ _) =>
      {| reply_err := None; reply_result := Some {| result := Some first |} |}
  | _ => {| reply_err := None; reply_result := Some {| result := Some final |} |}
  end.

Definition text_payload (s : string) : option Payload :=
  Some (PayloadBinary (utf8_encode s)).

Definition doc (s : string) (d : option bool) : Document :=
  {| payload := text_payload s; conversationId := Some 1; done := d;
     dollar_err := None; errmsg := None |}.

(** The client nonce whose base64 text is "fyko+d2lbbFgONRv9qkxdawL". *)
Definition client_nonce : Buffer := decode_base64 "fyko+d2lbbFgONRv9qkxdawL".

Definition context (user pass : string) (first final : Document) : AuthContext :=
  {| connection := {| sent := []; server := scripted first final |};
     credentials := {| username := user; password := pass; source := "admin" |};
     nonce := Some client_nonce;
     response := None |}.

Definition empty_cache : HICache := _hiCachePurge.

End Example.


(** ** Properties the theorems refer to *)

(** The bytes of a payload, Buffer or Binary. *)
Definition payload_bytes (p : Payload) : Buffer :=
  match p with
  | PayloadBuffer b => b
  | PayloadBinary b => b
  end.

(** The AuthMessage in the words of the specification: the three
    components joined by commas, the third being [c=biws,r=] and the
    combined nonce. *)
Definition authMessage_spec (client_first_bare server_first r : string) : string :=
  client_first_bare +:+ "," +:+ server_first +:+ "," +:+ "c=biws,r=" +:+ r.

(** The errors the callback of the first [saslContinue] can report. *)
Definition reply_error (e : Error) : bool :=
  match e with
  | TransportError _ | ServerError _ | InvalidSignature => true
  | _ => false
  end.

(** The [db.$cmd] namespace of the credentials. *)
Definition cmd_ns (authContext : AuthContext) : string :=
  source (credentials authContext) +:+ ".$cmd".

(** A reply without error that carries the document [r]. *)
Definition ok_reply (reply : Reply) (r : Document) : Prop :=
  reply_err reply = None
  /\ reply_result reply = Some {| result := Some r |}
  /\ truthy (dollar_err r) || truthy (errmsg r) = false.

(** What is given once the server-first message is being processed: a
    nonce, a processed password and a payload. *)
Definition ready `{Runtime} (m : CryptoMethod) (serverFirst : Document) (authContext : AuthContext)
    (n : Buffer) (processedPassword : string) (p : Payload) : Prop :=
  nonce authContext = Some n
  /\ processPassword m (cleanUsername (username (credentials authContext)))
       (password (credentials authContext)) = Go processedPassword
  /\ payload serverFirst = Some p.

(** The attributes of the server-first message. *)
Definition server_first_dict `{Runtime} (p : Payload) : gmap string (option string) :=
  parsePayload (binary_value (payload_bytes p)).

Definition server_iterations `{Runtime} (p : Payload) : JSNumber :=
  parseInt (dict_get (server_first_dict p) "i").

(** [c] occurs in [s]. *)
Fixpoint occurs (c : ascii) (s : string) : bool :=
  match s with
  | EmptyString => false
  | String x r => Ascii.eqb x c || occurs c r
  end.

(** [crypto.pbkdf2Sync] returns [keylen] bytes when it returns. *)
Definition pbkdf2Sync_length `{Runtime} : Prop :=
  forall data salt iterations keylen m b,
    pbkdf2Sync data salt iterations keylen m = Normal b ->
    length b = Z.to_nat keylen.

(** Every entry is a byte. *)
Definition is_bytes (b : Buffer) : Prop := Forall (fun x => 0 <= x < 256) b.

(** [crypto.timingSafeEqual], when present, decides equality of buffers
    of one length. *)
Definition timingSafeEqual_correct `{Runtime} : Prop :=
  forall f, timingSafeEqual = Some f ->
  forall a b : Buffer, length a = length b -> (f a b = true <-> a = b).

(** ** [prepare] *)

(** What [crypto.randomBytes(24, callback)] hands to its callback. *)
Inductive RandomBytes :=
| RandomFailed (err : UniversalError)
| RandomNonce (nonce : Buffer).

(** The request [prepare] calls back with: the handshake document with
    the field [speculativeAuthenticate], which is the first message
    extended with [db]. *)
Record HandshakeRequest (HandshakeDocument : Type) := mkHandshakeRequest {
  handshakeDoc : HandshakeDocument;
  speculativeCommand : Command;
  speculativeDb : string
}.
Arguments mkHandshakeRequest {HandshakeDocument} _ _ _.
Arguments handshakeDoc {HandshakeDocument} _.
Arguments speculativeCommand {HandshakeDocument} _.
Arguments speculativeDb {HandshakeDocument} _.

Inductive Prepared (HandshakeDocument : Type) :=
| PrepareFailed (err : UniversalError)
| PrepareDone (request : HandshakeRequest HandshakeDocument).
Arguments PrepareFailed {HandshakeDocument} err.
Arguments PrepareDone {HandshakeDocument} request.

(** [ScramSHA.prepare].  The first component tells whether the warning
    about the missing [saslprep] was printed; the context is returned as
    [Object.assign(authContext, { nonce })] leaves it. *)
Definition prepare `{Runtime} {HandshakeDocument : Type} (cryptoMethod : CryptoMethod)
    (handshakeDoc : HandshakeDocument) (authContext : AuthContext) (random : RandomBytes)
  : bool * AuthContext * Prepared HandshakeDocument :=
  let warned :=
    match cryptoMethod, saslprep with
    | sha256, None => true
    | _, _ => false
    end in
  match random with
  | RandomFailed err => (warned, authContext, PrepareFailed err)
  | RandomNonce nonce =>
      let authContext :=
        {| connection := connection authContext;
           credentials := credentials authContext;
           nonce := Some nonce;
           response := response authContext |} in
      let credentials := credentials authContext in
      let request :=
        {| handshakeDoc := handshakeDoc;
           speculativeCommand := makeFirstMessage cryptoMethod credentials nonce;
           speculativeDb := source credentials |} in
      (warned, authContext, PrepareDone request)
  end.

(** ** More properties the theorems refer to *)

(** The cache counts its entries and holds at most 200 of them. *)
Definition cache_ok (st : HICache) : Prop :=
  _hiCacheCount st = Z.of_nat (size (_hiCache st)) /\ _hiCacheCount st <= 200.

(** The commands the server-first step can submit to [ns]: nothing, the
    client-final [saslContinue] with the conversation id [id], or that
    one followed by a [saslContinue] with an empty payload. *)
Definition continue_trace (ns : string) (id : option Z) (cmds : list (string * Command)) : Prop :=
  cmds = []
  \/ (exists p, cmds = [(ns, SaslContinue id p)])
  \/ (exists p id', cmds = [(ns, SaslContinue id p);
                            (ns, SaslContinue id' (PayloadBuffer []))]).

(** Neither [,] nor [=] occurs in [s]. *)
Definition plain (s : string) : bool :=
  negb (occurs ","%char s) && negb (occurs "="%char s).


(** ** More concrete conversations *)

Module MoreRuns.
Import Example.

(** The server-first message of the first scenario. *)
Definition first_text : string :=
  "r=fyko+d2lbbFgONRv9qkxdawL3rfcNHYJY1ZVvWVs7j,s=QSXCR+Q6sek8bf92,i=4096".

(** A connection that is closed: every command ends in a transport error. *)
Definition closed (log : list (string * Command)) : Reply :=
  {| reply_err := Some "connection closed"; reply_result := None |}.

Definition on_closed : AuthContext :=
  {| connection := {| sent := []; server := closed |};
     credentials := {| username := "user"; password := "pencil"; source := "admin" |};
     nonce := Some client_nonce;
     response := None |}.

(** The context after a handshake that brought a speculative reply. *)
Definition speculative : AuthContext :=
  {| connection := {| sent := []; server := scripted (doc first_text None)
                                              (doc "v=AAAA" (Some false)) |};
     credentials := {| username := "user"; password := "pencil"; source := "admin" |};
     nonce := Some client_nonce;
     response := Some {| speculativeAuthenticate := Some (doc first_text None) |} |}.

Definition full : AuthContext :=
  context "user" "pencil" (doc first_text None) (doc "v=AAAA" (Some false)).

End MoreRuns.

(** ** Command monitoring events

    The second module of the file: the events published for a command
    and the helpers that extract the command and its reply.

    A JavaScript object is the list of its own properties in the order
    [Object.keys] lists them.  The classes [GetMore], [KillCursor], [Msg]
    and [Query] are declared elsewhere; they appear with the fields this
    module reads.  The first own key of a [Query] instance and
    [calculateDurationInMs] come from outside and are parameters. *)

Module Events.

#[local] Set Warnings "-register-all".

Inductive Value :=
| VUndefined
| VNull
| VBool (b : bool)
| VNumber (z : Z)
| VString (s : string)
| VObject (fields : list (string * Value))
| VArray (items : list Value).

Abbreviation Document := (list (string * Value)) (only parsing).

(** [o[k]] on an object. *)
Fixpoint get (o : Document) (k : string) : Value :=
  match o with
  | [] => VUndefined
  | (k', v) :: r => if String.eqb k' k then v else get r k
  end.

(** [o[k] = v]: an existing property keeps its place, a new one comes last. *)
Fixpoint set (o : Document) (k : string) (v : Value) : Document :=
  match o with
  | [] => [(k, v)]
  | (k', v') :: r => if String.eqb k' k then (k, v) :: r else (k', v') :: set r k v
  end.

(** [v[k]] for a key that only an object can hold (none of the keys read
    here is a property of a string, an array or a number). *)
Definition prop (v : Value) (k : string) : Value :=
  match v with
  | VObject fields => get fields k
  | _ => VUndefined
  end.

(** A value in a boolean context. *)
Definition truthy (v : Value) : bool :=
  match v with
  | VUndefined | VNull => false
  | VBool b => b
  | VNumber z => negb (z =? 0)
  | VString s => negb (String.eqb s "")
  | VObject _ | VArray _ => true
  end.

(** [typeof v !== 'undefined'] *)
Definition defined (v : Value) : bool :=
  match v with
  | VUndefined => false
  | _ => true
  end.

(** [if (typeof v !== 'undefined') result[k] = v] *)
Definition assign_defined (result : Document) (k : string) (v : Value) : Document :=
  if defined v then set result k v else result.

(** [if (v) result[k] = v] *)
Definition assign_truthy (result : Document) (k : string) (v : Value) : Document :=
  if truthy v then set result k v else result.

(** The own properties [Object.assign({}, v)] copies. *)
Definition own_props (v : Value) : Document :=
  match v with
  | VObject fields => fields
  | VString s =>
      imap (fun i c => (pretty i, VString (String c ""))) (list_ascii_of_string s)
  | VArray items => imap (fun i x => (pretty i, x)) items
  | _ => []
  end.

Record Query := mkQuery {
  ns : string;
  requestId : Z;
  query : Value;
  numberToSkip : Value;
  numberToReturn : Value;
  returnFieldsSelector : Value;
  tailable : Value;
  oplogReplay : Value;
  noCursorTimeout : Value;
  awaitData : Value;
  partial : Value;
  exhaust : Value;
  pre32Limit : Value
}.

(** [commandObject[key]] on a [Query]. *)
Definition field (q : Query) (key : string) : Value :=
  if String.eqb key "numberToSkip" then numberToSkip q
  else if String.eqb key "numberToReturn" then numberToReturn q
  else if String.eqb key "returnFieldsSelector" then returnFieldsSelector q
  else if String.eqb key "tailable" then tailable q
  else if String.eqb key "oplogReplay" then oplogReplay q
  else if String.eqb key "noCursorTimeout" then noCursorTimeout q
  else if String.eqb key "awaitData" then awaitData q
  else if String.eqb key "partial" then partial q
  else if String.eqb key "exhaust" then exhaust q
  else VUndefined.

Inductive CommandType :=
| GetMore (ns : string) (requestId : Z) (cursorId numberToReturn : Value)
| KillCursor (ns : string) (requestId : Z) (cursorIds : Value)
| Msg (ns : string) (requestId : Z) (command : Value)
| IsQuery (q : Query).

Definition command_ns (command : CommandType) : string :=
  match command with
  | GetMore ns _ _ _ | KillCursor ns _ _ | Msg ns _ _ => ns
  | IsQuery q => ns q
  end.

Definition command_requestId (command : CommandType) : Z :=
  match command with
  | GetMore _ id _ _ | KillCursor _ id _ | Msg _ id _ => id
  | IsQuery q => requestId q
  end.

(** [command.query]; only a [Query] has the field. *)
Definition command_query (command : CommandType) : Value :=
  match command with
  | IsQuery q => query q
  | _ => VUndefined
  end.

(** Commands whose contents are redacted. *)
Definition SENSITIVE_COMMANDS : list string :=
  ["authenticate"; "saslStart"; "saslContinue"; "getnonce"; "createUser";
   "updateUser"; "copydbgetnonce"; "copydbsaslstart"; "copydb"].

(** [SENSITIVE_COMMANDS.has(commandName)], the name being possibly
    [undefined]. *)
Definition sensitive (commandName : option string) : bool :=
  match commandName with
  | Some name => existsb (String.eqb name) SENSITIVE_COMMANDS
  | None => false
  end.

Definition namespace (command : CommandType) : string := command_ns command.

Definition databaseName (command : CommandType) : string :=
  default "" (split "."%char (command_ns command) !! 0%nat).

Definition collectionName (command : CommandType) : option string :=
  split "."%char (command_ns command) !! 1%nat.

(** A string that may be [undefined], as a value. *)
Definition of_option (s : option string) : Value :=
  match s with
  | Some s => VString s
  | None => VUndefined
  end.

(** [{}] or the result itself. *)
Inductive Redacted (A : Type) :=
| Empty
| Kept (a : A).
Arguments Empty {A}.
Arguments Kept {A} a.

Definition maybeRedact {A : Type} (commandName : option string) (result : A) : Redacted A :=
  if sensitive commandName then Empty else Kept result.

Definition LEGACY_FIND_QUERY_MAP : list (string * string) :=
  [("$query", "filter"); ("$orderby", "sort"); ("$hint", "hint");
   ("$comment", "comment"); ("$maxScan", "maxScan"); ("$max", "max");
   ("$min", "min"); ("$returnKey", "returnKey"); ("$showDiskLoc", "showRecordId");
   ("$maxTimeMS", "maxTimeMS"); ("$snapshot", "snapshot")].

Definition LEGACY_FIND_OPTIONS_MAP : list (string * string) :=
  [("numberToSkip", "skip"); ("numberToReturn", "batchSize");
   ("returnFieldsSelector", "projection")].

Definition OP_QUERY_KEYS : list string :=
  ["tailable"; "oplogReplay"; "noCursorTimeout"; "awaitData"; "partial"; "exhaust"].

(** What [extractCommand] returns: a value, or the command itself. *)
Inductive Extracted :=
| OfValue (v : Value)
| Self (q : Query).

(** The up-converted legacy find command, before the options are added. *)
Definition legacy_find (q : Query) : Document :=
  fold_left
    (fun result kn => assign_defined result (snd kn) (prop (query q) (fst kn)))
    LEGACY_FIND_QUERY_MAP
    [("find", of_option (collectionName (IsQuery q)))].

(** The options a legacy query adds to the up-converted command. *)
Definition legacy_options (q : Query) (result : Document) : Document :=
  let result :=
    fold_left (fun result kn => assign_defined result (snd kn) (field q (fst kn)))
      LEGACY_FIND_OPTIONS_MAP result in
  let result :=
    fold_left (fun result key => assign_truthy result key (field q key))
      OP_QUERY_KEYS result in
  assign_defined result "limit" (pre32Limit q).

Definition extractCommand (command : CommandType) : Extracted :=
  match command with
  | GetMore _ _ cursorId numberToReturn =>
      OfValue (VObject [("getMore", cursorId);
                        ("collection", of_option (collectionName command));
                        ("batchSize", numberToReturn)])
  | KillCursor _ _ cursorIds =>
      OfValue (VObject [("killCursors", of_option (collectionName command));
                        ("cursors", cursorIds)])
  | Msg _ _ cmd => OfValue cmd
  | IsQuery q =>
      if truthy (query q) && truthy (prop (query q) "$query") then
        let result :=
          if String.eqb (ns q) "admin.$cmd"
          then own_props (prop (query q) "$query")
          else legacy_find q in
        let result := legacy_options q result in
        if truthy (prop (query q) "$explain")
        then OfValue (VObject [("explain", VObject result)])
        else OfValue (VObject result)
      else if truthy (query q) then OfValue (query q) else Self q
  end.

(** The reply as a server result carries it. *)
Record Message := mkMessage {
  cursorId : Value;
  documents : Value
}.

Record CommandResult := mkCommandResult {
  message : Message;
  result : Value
}.

(** What [extractReply] returns: a value, or the reply itself. *)
Inductive ExtractedReply :=
| ReplyValue (v : Value)
| ReplySelf (reply : CommandResult).

Definition extractReply (command : CommandType) (reply : CommandResult) : ExtractedReply :=
  match command with
  | GetMore _ _ _ _ =>
      ReplyValue
        (VObject [("ok", VNumber 1);
                  ("cursor", VObject [("id", cursorId (message reply));
                                      ("ns", VString (namespace command));
                                      ("nextBatch", documents (message reply))])])
  | KillCursor _ _ cursorIds =>
      ReplyValue (VObject [("ok", VNumber 1); ("cursorsUnknown", cursorIds)])
  | _ =>
      if truthy (command_query command) && defined (prop (command_query command) "$query")
      then
        ReplyValue
          (VObject [("ok", VNumber 1);
                    ("cursor", VObject [("id", cursorId (message reply));
                                        ("ns", VString (namespace command));
                                        ("firstBatch", documents (message reply))])])
      else if truthy (result reply) then ReplyValue (result reply) else ReplySelf reply
  end.

(** A connection or a pool; [id] is there when ['id' in connection]. *)
Record Pool := mkPool {
  address : string;
  id : option Value
}.

Definition extractConnectionDetails (connection : Pool) : string * Value :=
  (address connection, default VUndefined (id connection)).

Record CommandStartedEvent := mkStarted {
  started_commandObj : option Document;
  started_requestId : Z;
  started_databaseName : string;
  started_commandName : option string;
  started_command : Extracted;
  started_address : string;
  started_connectionId : Value
}.

Record CommandSucceededEvent := mkSucceeded {
  succeeded_address : string;
  succeeded_connectionId : Value;
  succeeded_requestId : Z;
  succeeded_duration : Z;
  succeeded_commandName : option string;
  succeeded_reply : Redacted ExtractedReply
}.

Record CommandFailedEvent (E : Type) := mkFailed {
  failed_address : string;
  failed_connectionId : Value;
  failed_requestId : Z;
  failed_commandName : option string;
  failed_duration : Z;
  failed_failure : Redacted E
}.
Arguments mkFailed {E} _ _ _ _ _ _.
Arguments failed_commandName {E} _.
Arguments failed_failure {E} _.

Section Constructors.

(** [Object.keys(q)[0]] for an instance of [Query]. *)
Variable first_own_key : Query -> option string.

(** [calculateDurationInMs(started)] *)
Variable calculateDurationInMs : Z -> Z.

(** [Object.keys(commandDoc)[0]]; [Object.keys] throws on [undefined]
    and [null]. *)
Definition extractCommandName (commandDoc : Extracted) : Completion (option string) :=
  match commandDoc with
  | Self q => Normal (first_own_key q)
  | OfValue v =>
      match v with
      | VUndefined | VNull => Throw (TypeError "Object.keys")
      | _ => Normal (fst <$> head (own_props v))
      end
  end.

Definition new_CommandStartedEvent (pool : Pool) (command : CommandType)
  : Completion CommandStartedEvent :=
  let cmd := extractCommand command in
  match extractCommandName cmd with
  | Throw e => Throw e
  | Normal commandName =>
      let '(address, connectionId) := extractConnectionDetails pool in
      let commandObj :=
        if sensitive commandName
        then Some (set [] (default "" commandName) (VBool true))
        else None in
      Normal {| started_commandObj := commandObj;
                started_requestId := command_requestId command;
                started_databaseName := databaseName command;
                started_commandName := commandName;
                started_command := cmd;
                started_address := address;
                started_connectionId := connectionId |}
  end.

Definition new_CommandSucceededEvent (pool : Pool) (command : CommandType)
    (reply : CommandResult) (started : Z) : Completion CommandSucceededEvent :=
  let cmd := extractCommand command in
  match extractCommandName cmd with
  | Throw e => Throw e
  | Normal commandName =>
      let '(address, connectionId) := extractConnectionDetails pool in
      Normal {| succeeded_address := address;
                succeeded_connectionId := connectionId;
                succeeded_requestId := command_requestId command;
                succeeded_duration := calculateDurationInMs started;
                succeeded_commandName := commandName;
                succeeded_reply := maybeRedact commandName (extractReply command reply) |}
  end.

Definition new_CommandFailedEvent {E : Type} (pool : Pool) (command : CommandType)
    (error : E) (started : Z) : Completion (CommandFailedEvent E) :=
  let cmd := extractCommand command in
  match extractCommandName cmd with
  | Throw e => Throw e
  | Normal commandName =>
      let '(address, connectionId) := extractConnectionDetails pool in
      Normal {| failed_address := address;
                failed_connectionId := connectionId;
                failed_requestId := command_requestId command;
                failed_commandName := commandName;
                failed_duration := calculateDurationInMs started;
                failed_failure := maybeRedact commandName error |}
  end.

End Constructors.

End Events.

Module EventRuns.
Import Events.

(** A [saslStart] wrapped as a legacy query for the database [test]. *)
Definition wrapped_saslStart : Query :=
  {| ns := "test.$cmd"; requestId := 7;
     query := VObject [("$query", VObject [("saslStart", VNumber 1)]);
                       ("$readPreference", VObject [("mode", VString "secondary")])];
     numberToSkip := VNumber 0; numberToReturn := VNumber (-1);
     returnFieldsSelector := VUndefined; tailable := VUndefined;
     oplogReplay := VUndefined; noCursorTimeout := VUndefined;
     awaitData := VUndefined; partial := VUndefined; exhaust := VUndefined;
     pre32Limit := VUndefined |}.


Definition pool : Pool := {| address := "localhost:27017"; id := Some (VNumber 3) |}.

Definition server_reply : CommandResult :=
  {| message := {| cursorId := VNumber 0;
                   documents := VArray [VObject [("payload", VString "r=abc")]] |};
     result := VObject [("payload", VString "r=abc")] |}.

End EventRuns.

(** ** The wire protocol [command]

    The dispatch of [command] and the two capability tests of the
    module.  [_command] and [_cryptCommand] are what the dispatch ends
    in; [maxWireVersion] of the utilities is a parameter. *)

Module WireCommand.

(** An [ismaster] reply or a server description, with the fields read:
    [maxWireVersion] (possibly [undefined]) and whether
    [__nodejs_mock_server__] is there (neither [null] nor [undefined]). *)
Record Description := mkDescription {
  description_maxWireVersion : option Z;
  nodejs_mock_server : bool
}.

(** [x >= 6] for a number that may be [undefined]. *)
Definition at_least_6 (v : option Z) : bool :=
  match v with
  | Some z => 6 <=? z
  | None => false
  end.

Section Dispatch.

(** The types of the auto-encrypter, the command document, the options
    and the callback. *)
Context {AutoEncrypter Document CommandOptions Callback : Type}.

Record Server := mkServer {
  ismaster : option Description;
  description : option Description;
  autoEncrypter : option AutoEncrypter
}.

Definition hasSessionSupport (topology : option Server) : bool :=
  match topology with
  | None => false
  | Some topology =>
      match description topology with
      | Some d => at_least_6 (description_maxWireVersion d)
      | None =>
          match ismaster topology with
          | None => false
          | Some i => at_least_6 (description_maxWireVersion i)
          end
      end
  end.

Definition supportsOpMsg (topologyOrServer : Server) : bool :=
  let description :=
    match ismaster topologyOrServer with
    | Some i => Some i
    | None => description topologyOrServer
    end in
  match description with
  | None => false
  | Some d => at_least_6 (description_maxWireVersion d) && negb (nodejs_mock_server d)
  end.

(** [maxWireVersion(server)] of the utilities; [None] is [undefined]. *)
Variable maxWireVersion : Server -> option Z.

(** [{}] *)
Variable no_options : CommandOptions.

(** [wireVersion && server.autoEncrypter] in a boolean context. *)
Definition isClientEncryptionEnabled (server : Server) : bool :=
  match maxWireVersion server with
  | Some wireVersion =>
      negb (wireVersion =? 0)
      && match autoEncrypter server with Some _ => true | None => false end
  | None => false
  end.

(** The fourth argument of [command]: the callback, the options, or
    nothing. *)
Inductive OptionsArgument :=
| IsCallback (callback : Callback)
| IsOptions (options : CommandOptions)
| NoOptions.

(** The two errors of [command]:
    - [NoCursor]: 'command ... does not return a cursor'
    - [AutoEncryptionVersion]: 'Auto-encryption requires a minimum
      MongoDB version of 4.2'. *)
Inductive CommandError :=
| NoCursor
| AutoEncryptionVersion.

(** How [command] ends: the callback is called with an error, or the
    command goes to [_command] or to [_cryptCommand]. *)
Inductive Dispatched :=
| CallbackError (callback : option Callback) (err : CommandError)
| ToCommand (server : Server) (ns : string) (cmd : Document)
    (options : CommandOptions) (callback : option Callback)
| ToCryptCommand (server : Server) (ns : string) (cmd : Document)
    (options : CommandOptions) (callback : option Callback).

Definition command (server : Server) (ns : string) (cmd : option Document)
    (options : OptionsArgument) (callback : option Callback) : Dispatched :=
  let '(callback, options) :=
    match options with
    | IsCallback f => (Some f, no_options)
    | IsOptions o => (callback, o)
    | NoOptions => (callback, no_options)
    end in
  match cmd with
  | None => CallbackError callback NoCursor
  | Some cmd =>
      if negb (isClientEncryptionEnabled server)
      then ToCommand server ns cmd options callback
      else
        match maxWireVersion server with
        | Some wireVersion =>
            if wireVersion <? 8
            then CallbackError callback AutoEncryptionVersion
            else ToCryptCommand server ns cmd options callback
        | None => CallbackError callback AutoEncryptionVersion
        end
  end.

End Dispatch.

Arguments Server : clear implicits.
Arguments OptionsArgument : clear implicits.
Arguments Dispatched : clear implicits.

End WireCommand.

(** * Theorems *)

(** ** [compareDigest] *)

Lemma at_int32_lookup (a : Buffer) (i : nat) (x : Z) :
  a !! i = Some x -> at_int32 a i = x.
Proof. unfold at_int32. by intros ->. Qed.

Lemma at_int32_ge (a : Buffer) (i : nat) :
  (length a <= i)%nat -> at_int32 a i = 0.
Proof. intros Hi. unfold at_int32. by rewrite lookup_ge_None_2. Qed.

Lemma fold_lor_zero (f : nat -> Z) (l : list nat) (acc : Z) :
  fold_left (fun result i => Z.lor result (f i)) l acc = 0
  <-> acc = 0 /\ Forall (fun i => f i = 0) l.
Proof.
  revert acc. induction l as [|i l IH]; intros acc; simpl.
  - split; [intros ->; split; [done | constructor] | by intros [-> _]].
  - rewrite IH, Z.lor_eq_0_iff, Forall_cons. tauto.
Qed.

Lemma compareDigest_loop_eq (a b : Buffer) :
  length a = length b -> (compareDigest_loop a b = 0 <-> a = b).
Proof.
  intros Hlen. unfold compareDigest_loop. rewrite fold_lor_zero, Forall_forall.
  split.
  - intros [_ Hall]. apply list_eq. intros i.
    destruct (decide (i < length a)%nat) as [Hi|Hi].
    + destruct (lookup_lt_is_Some_2 a i Hi) as [x Hx].
      destruct (lookup_lt_is_Some_2 b i ltac:(lia)) as [y Hy].
      specialize (Hall i). rewrite elem_of_seq in Hall.
      rewrite (at_int32_lookup _ _ _ Hx), (at_int32_lookup _ _ _ Hy) in Hall.
      rewrite Hx, Hy. f_equal. apply Z.lxor_eq, Hall. lia.
    + rewrite !lookup_ge_None_2; [done | lia | lia].
  - intros ->. split; [done |]. intros i _. apply Z.lxor_nilpotent.
Qed.

(** C4. [compareDigest] answers [false] when the lengths differ, [true]
    on equal inputs and [false] on different inputs of one length,
    whether it goes through [crypto.timingSafeEqual] (assumed to decide
    equality) or through its own loop. *)
Theorem compareDigest_correct `{Runtime} (a b : Buffer)
    (Hts : timingSafeEqual_correct) :
  (length a <> length b -> compareDigest a b = false)
  /\ compareDigest a a = true
  /\ (length a = length b -> a <> b -> compareDigest a b = false).
Proof.
  unfold compareDigest. repeat split.
  - intros Hne. apply Nat.eqb_neq in Hne. by rewrite Hne.
  - rewrite Nat.eqb_refl. simpl.
    destruct timingSafeEqual as [f|] eqn:Hf.
    + by apply (Hts f).
    + apply Z.eqb_eq. by apply compareDigest_loop_eq.
  - intros Hlen Hne. rewrite Hlen, Nat.eqb_refl. simpl.
    destruct timingSafeEqual as [f|] eqn:Hf.
    + apply not_true_is_false. intros Heq. by apply Hne, (Hts f).
    + apply Z.eqb_neq. intros Heq. by apply Hne, compareDigest_loop_eq.
Qed.

Lemma example_timingSafeEqual_correct :
  @timingSafeEqual_correct Example.runtime.
Proof.
  intros f [= <-] a b _. apply bool_decide_eq_true.
Qed.

Lemma compareDigest_correct_witness :
  @timingSafeEqual_correct Example.runtime
  /\ ((length [1; 2] <> length [1; 2; 3] ->
       @compareDigest Example.runtime [1; 2] [1; 2; 3] = false)
      /\ @compareDigest Example.runtime [1; 2] [1; 2] = true
      /\ (length [1; 2] = length [1; 2; 3] -> [1; 2] <> [1; 2; 3] ->
          @compareDigest Example.runtime [1; 2] [1; 2; 3] = false)).
Proof.
  split.
  - exact example_timingSafeEqual_correct.
  - exact (@compareDigest_correct Example.runtime [1; 2] [1; 2; 3]
             example_timingSafeEqual_correct).
Defined.

(** ** [xor] *)

Lemma xor_res_length (a b : Buffer) :
  length (xor_res a b) = Nat.max (length a) (length b).
Proof. unfold xor_res. by rewrite length_fmap, length_seq. Qed.

Lemma xor_res_lookup (a b : Buffer) (i : nat) :
  (i < Nat.max (length a) (length b))%nat ->
  xor_res a b !! i = Some (Z.lxor (at_int32 a i) (at_int32 b i)).
Proof.
  intros Hi. unfold xor_res.
  by rewrite list_lookup_fmap, lookup_seq_lt.
Qed.

Lemma land_255_byte (x : Z) : 0 <= x < 256 -> Z.land x 255 = x.
Proof.
  intros Hx. change 255 with (Z.ones 8).
  rewrite Z.land_ones by lia. apply Z.mod_small. simpl. lia.
Qed.

Lemma land_lxor_distr (a b c : Z) :
  Z.land (Z.lxor a b) c = Z.lxor (Z.land a c) (Z.land b c).
Proof.
  apply Z.bits_inj'. intros n _.
  rewrite Z.land_spec, !Z.lxor_spec, !Z.land_spec.
  by destruct (Z.testbit a n), (Z.testbit b n), (Z.testbit c n).
Qed.

Lemma at_int32_from_array (l : list Z) (i : nat) :
  at_int32 (Buffer_from_array l) i = Z.land (at_int32 l i) 255.
Proof.
  unfold at_int32, Buffer_from_array. rewrite list_lookup_fmap.
  by destruct (l !! i).
Qed.

Lemma at_int32_xor_res (a b : Buffer) (i : nat) :
  at_int32 (xor_res a b) i = Z.lxor (at_int32 a i) (at_int32 b i).
Proof.
  destruct (decide (i < Nat.max (length a) (length b))%nat) as [Hi|Hi].
  - apply at_int32_lookup. by apply xor_res_lookup.
  - rewrite !at_int32_ge; [done | lia | lia | rewrite xor_res_length; lia].
Qed.

(** The bytes under the base64 text of [xor] undo themselves. *)
Lemma xor_buffer_involutive (a b : Buffer) :
  length a = length b -> is_bytes b ->
  xor_buffer (IsBuffer a) (IsBuffer (xor_buffer (IsBuffer a) (IsBuffer b))) = b.
Proof.
  intros Hlen Hb. unfold xor_buffer, toBuffer. apply list_eq. intros i.
  unfold Buffer_from_array at 1. rewrite list_lookup_fmap.
  destruct (decide (i < length b)%nat) as [Hi|Hi].
  - rewrite xor_res_lookup
      by (unfold Buffer_from_array; rewrite length_fmap, xor_res_length; lia).
    destruct (lookup_lt_is_Some_2 b i Hi) as [y Hy].
    rewrite Hy. simpl. f_equal.
    rewrite at_int32_from_array, at_int32_xor_res, (at_int32_lookup _ _ _ Hy).
    rewrite !land_lxor_distr, <- Z.land_assoc, Z.land_diag.
    rewrite <- Z.lxor_assoc, Z.lxor_nilpotent, Z.lxor_0_l.
    unfold is_bytes in Hb. rewrite Forall_lookup in Hb.
    pose proof (Hb i y Hy) as Hy255.
    by rewrite !(land_255_byte y Hy255).
  - rewrite (lookup_ge_None_2 b) by lia.
    rewrite lookup_ge_None_2; [done |].
    unfold Buffer_from_array. rewrite xor_res_length, length_fmap, xor_res_length. lia.
Qed.

(** C9 (as the code has it). [xor] takes buffers of any two lengths: the
    result covers the longer one, the missing bytes of the shorter one
    counting as zero.  It returns the base64 text of the XOR-ed bytes, not
    the bytes; on inputs of one length those bytes satisfy
    a XOR (a XOR b) = b. *)
Theorem xor_pads_and_prints (a b : Buffer) :
  xor (IsBuffer a) (IsBuffer b) = toString_base64 (xor_buffer (IsBuffer a) (IsBuffer b))
  /\ length (xor_buffer (IsBuffer a) (IsBuffer b)) = Nat.max (length a) (length b)
  /\ (forall i, xor_buffer (IsBuffer a) (IsBuffer b) !! i
                = if decide (i < Nat.max (length a) (length b))%nat
                  then Some (Z.land (Z.lxor (default 0 (a !! i)) (default 0 (b !! i))) 255)
                  else None)
  /\ (length a = length b -> is_bytes b ->
      xor_buffer (IsBuffer a) (IsBuffer (xor_buffer (IsBuffer a) (IsBuffer b))) = b).
Proof.
  split; [reflexivity |]. split; [| split].
  - unfold xor_buffer, Buffer_from_array, toBuffer.
    by rewrite length_fmap, xor_res_length.
  - intros i. unfold xor_buffer, Buffer_from_array, toBuffer.
    rewrite list_lookup_fmap. case_decide as Hi.
    + by rewrite xor_res_lookup.
    + rewrite lookup_ge_None_2; [done | rewrite xor_res_length; lia].
  - apply xor_buffer_involutive.
Qed.

Lemma xor_pads_and_prints_witness :
  (length [1; 2] = length [3; 4] -> is_bytes [3; 4] ->
   xor_buffer (IsBuffer [1; 2]) (IsBuffer (xor_buffer (IsBuffer [1; 2]) (IsBuffer [3; 4])))
   = [3; 4])
  /\ length [1; 2] = length [3; 4] /\ is_bytes [3; 4].
Proof.
  split; [exact (proj2 (proj2 (proj2 (xor_pads_and_prints [1; 2] [3; 4])))) |].
  split; [reflexivity |]. repeat constructor; lia.
Defined.

(** C9 (as the spec has it) fails: inputs of different lengths are not
    rejected, and the result of [xor] is text, so that feeding it back
    does not give [b]. *)
Lemma xor_not_rejecting_not_involutive :
  xor (IsBuffer [1]) (IsBuffer [1; 2]) = "AAI="
  /\ xor (IsBuffer [1]) (IsString (xor (IsBuffer [1]) (IsBuffer [2]))) = "QHc9PQ=="
  /\ xor_buffer (IsBuffer [1]) (IsString (xor (IsBuffer [1]) (IsBuffer [2]))) <> [2].
Proof. split; [reflexivity | split; [reflexivity | discriminate]]. Qed.

(** ** [parsePayload] *)

Lemma split_cons (sep : ascii) (s : string) :
  exists x xs, split sep s = x :: xs.
Proof.
  destruct s as [|c s]; simpl; [by eauto |].
  destruct (Ascii.eqb c sep); [by eauto |].
  destruct (split sep s); by eauto.
Qed.

Lemma split_app (sep : ascii) (a b : string) :
  split sep (a +:+ String sep b) = split sep a ++ split sep b.
Proof.
  induction a as [|c a IH]; simpl.
  - by rewrite Ascii.eqb_refl.
  - destruct (Ascii.eqb c sep); [by rewrite IH |].
    rewrite IH. by destruct (split_cons sep a) as (x & xs & ->).
Qed.

Lemma split_absent (sep : ascii) (s : string) :
  occurs sep s = false -> split sep s = [s].
Proof.
  induction s as [|c s IH]; simpl; [done |].
  intros [Hc Hs]%orb_false_elim. rewrite Hc. by rewrite IH.
Qed.

(** The element that follows the last comma is applied last. *)
Lemma parsePayload_last (rest part : string) :
  occurs ","%char part = false ->
  parsePayload (rest +:+ String ","%char part)
  = parsePayload_step (parsePayload rest) part.
Proof.
  intros Hpart. unfold parsePayload.
  by rewrite split_app, fold_left_app, (split_absent _ part Hpart).
Qed.

(** A key that occurs again keeps the value of its last occurrence. *)
Lemma parsePayload_last_wins (rest k v : string) :
  occurs ","%char k = false -> occurs ","%char v = false ->
  occurs "="%char k = false -> occurs "="%char v = false ->
  dict_get (parsePayload (rest +:+ String ","%char (k +:+ String "="%char v))) k = Some v.
Proof.
  intros Hk Hv Hk' Hv'. rewrite parsePayload_last.
  - unfold parsePayload_step, dict_get.
    rewrite split_app, (split_absent _ k Hk'), (split_absent _ v Hv'). simpl.
    by rewrite lookup_insert_eq.
  - clear Hk' Hv'. induction k as [|c k IH]; simpl in *.
    + by rewrite Hv.
    + apply orb_false_elim in Hk as [-> Hk]. by apply IH.
Qed.

(** What follows a second [=] in an element is dropped. *)
Lemma parsePayload_step_truncates (dict : gmap string (option string)) (k v rest : string) :
  occurs "="%char k = false -> occurs "="%char v = false ->
  dict_get (parsePayload_step dict (k +:+ String "="%char (v +:+ String "="%char rest))) k
  = Some v.
Proof.
  intros Hk Hv. unfold parsePayload_step, dict_get.
  rewrite !split_app, (split_absent _ k Hk), (split_absent _ v Hv). simpl.
  by rewrite lookup_insert_eq.
Qed.

(** C7. On the server-first message [r=abc,s=XYZ==,i=4096] the salt is
    read as [XYZ]: the element is split at every [=] and the second piece
    alone is kept, so the padding of the base64 value is lost. *)
Theorem parsePayload_drops_padding :
  dict_get (parsePayload "r=abc,s=XYZ==,i=4096") "s" = Some "XYZ"
  /\ dict_get (parsePayload "r=abc,s=XYZ==,i=4096") "s" <> Some "XYZ=="
  /\ dict_get (parsePayload "r=abc=def,s=XYZ==,i=4096") "r" = Some "abc".
Proof. split; [by vm_compute | split; [by vm_compute | by vm_compute]]. Qed.

(** ** The salted-password cache *)

Section Cache.
Context `{Runtime}.

Lemma HI_miss (st : HICache) (data : string) (salt : Buffer) (iterations : JSNumber)
    (m : CryptoMethod) :
  _hiCache st !! HI_key data salt iterations = None ->
  fst (HI st data salt iterations m)
  = pbkdf2Sync data salt iterations (hiLengthMap m) m.
Proof.
  intros Hmiss. unfold HI. rewrite Hmiss.
  by destruct (pbkdf2Sync _ _ _ _ _).
Qed.

Lemma HI_hit (st : HICache) (data : string) (salt : Buffer) (iterations : JSNumber)
    (m : CryptoMethod) (cached : Buffer) :
  _hiCache st !! HI_key data salt iterations = Some cached ->
  HI st data salt iterations m = (Normal cached, st).
Proof. intros Hhit. unfold HI. by rewrite Hhit. Qed.

Lemma HI_stores (st st1 : HICache) (data : string) (salt : Buffer)
    (iterations : JSNumber) (m : CryptoMethod) (v : Buffer) :
  HI st data salt iterations m = (Normal v, st1) ->
  _hiCache st1 !! HI_key data salt iterations = Some v.
Proof.
  unfold HI. destruct (_hiCache st !! _) as [cached|] eqn:Hc.
  - by intros [= <- <-].
  - destruct (pbkdf2Sync _ _ _ _ _) as [b|e]; [| done].
    intros [= <- <-]. simpl. by rewrite lookup_insert_eq.
Qed.

(** C1 (as the code has it). [HI] is a function of the cache and its
    arguments.  When the cache has no entry under the key made of the
    data, the salt and the iteration count, it returns what PBKDF2 gives
    for the method, with the output length of the method; when it has
    one, it returns the entry, whatever the method.  So a call that
    follows a successful one with the same data, salt and iteration
    count returns the same bytes for either method. *)
Theorem HI_cached_or_computed (st : HICache) (data : string) (salt : Buffer)
    (iterations : JSNumber) (m : CryptoMethod) :
  (_hiCache st !! HI_key data salt iterations = None ->
   fst (HI st data salt iterations m)
   = pbkdf2Sync data salt iterations (hiLengthMap m) m)
  /\ (forall cached,
        _hiCache st !! HI_key data salt iterations = Some cached ->
        HI st data salt iterations m = (Normal cached, st))
  /\ (forall v st1 m2,
        HI st data salt iterations m = (Normal v, st1) ->
        HI st1 data salt iterations m2 = (Normal v, st1)).
Proof.
  split; [apply HI_miss |]. split; [apply HI_hit |].
  intros v st1 m2 Hfirst. apply HI_hit. by eapply HI_stores.
Qed.

(** Whatever PBKDF2 is, provided it honours the requested length: after
    a SHA-1 call on an empty cache, the SHA-256 call with the same data,
    salt and iteration count does not return the SHA-256 derivation. *)
Lemma HI_method_collision (data : string) (salt : Buffer) (iterations : JSNumber)
    (v : Buffer) (st1 : HICache) :
  pbkdf2Sync_length ->
  HI _hiCachePurge data salt iterations sha1 = (Normal v, st1) ->
  fst (HI st1 data salt iterations sha256)
  <> pbkdf2Sync data salt iterations (hiLengthMap sha256) sha256.
Proof.
  intros Hlen Hfirst.
  rewrite (HI_hit st1 data salt iterations sha256 v) by (by eapply HI_stores).
  simpl. intros Heq. symmetry in Heq. apply Hlen in Heq.
  unfold HI, _hiCachePurge in Hfirst. cbn [_hiCache] in Hfirst.
  rewrite lookup_empty in Hfirst.
  destruct (pbkdf2Sync data salt iterations (hiLengthMap sha1) sha1) as [b|e] eqn:Hb;
    [| done].
  injection Hfirst as <- _. apply Hlen in Hb. simpl in *. lia.
Qed.

End Cache.

Lemma HI_cached_or_computed_witness :
  (_hiCache Example.empty_cache !! HI_key "pencil" [1; 2; 3] (Num 4096) = None ->
   fst (@HI Example.runtime Example.empty_cache "pencil" [1; 2; 3] (Num 4096) sha256)
   = @pbkdf2Sync Example.runtime "pencil" [1; 2; 3] (Num 4096) (hiLengthMap sha256) sha256)
  /\ _hiCache Example.empty_cache !! HI_key "pencil" [1; 2; 3] (Num 4096) = None.
Proof.
  split; [| reflexivity].
  exact (proj1 (@HI_cached_or_computed Example.runtime Example.empty_cache
                  "pencil" [1; 2; 3] (Num 4096) sha256)).
Defined.

(** C1 (as the spec has it) fails: with the cache filled by a SHA-1 call,
    the SHA-256 call with the same data, salt and iteration count returns
    the twenty bytes of the SHA-1 call, not the SHA-256 derivation. *)
Lemma HI_ignores_method_on_hit :
  let st1 := snd (@HI Example.runtime Example.empty_cache "pencil" [1; 2; 3] (Num 4096) sha1) in
  fst (@HI Example.runtime st1 "pencil" [1; 2; 3] (Num 4096) sha256)
  = fst (@HI Example.runtime Example.empty_cache "pencil" [1; 2; 3] (Num 4096) sha1)
  /\ fst (@HI Example.runtime st1 "pencil" [1; 2; 3] (Num 4096) sha256)
     <> @pbkdf2Sync Example.runtime "pencil" [1; 2; 3] (Num 4096) (hiLengthMap sha256) sha256.
Proof. split; [by vm_compute | by vm_compute]. Qed.

(** ** The conversation *)

Section ConversationFacts.
Context `{Runtime}.

(** C10. Without a nonce in the context, [executeScram] and
    [continueScramConversation] (hence [auth]) call back with an error at
    once: no command is submitted, the connection and the cache are as
    they were. *)
Theorem no_nonce_no_command (m : CryptoMethod) (serverFirst : Document)
    (authContext : AuthContext) (st : HICache) :
  nonce authContext = None ->
  executeScram m authContext st
  = (Called (Some NoNonceExecute) ResUndefined, connection authContext, st)
  /\ continueScramConversation m serverFirst authContext st
     = (Called (Some NoNonceContinue) ResUndefined, connection authContext, st)
  /\ exists e, auth m authContext st
               = (Called (Some e) ResUndefined, connection authContext, st).
Proof.
  intros Hnonce.
  assert (He : executeScram m authContext st
               = (Called (Some NoNonceExecute) ResUndefined, connection authContext, st))
    by (unfold executeScram; by rewrite Hnonce).
  assert (Hc : forall first, continueScramConversation m first authContext st
               = (Called (Some NoNonceContinue) ResUndefined, connection authContext, st))
    by (intros ?; unfold continueScramConversation; by rewrite Hnonce).
  split; [done |]. split; [done |].
  unfold auth. destruct (response authContext) as [[[spec|]]|]; simpl;
    rewrite ?He, ?Hc; eauto.
Qed.

Lemma resolveError_ok (reply : Reply) (r : Document) :
  ok_reply reply r ->
  resolveError (reply_err reply) (reply_result reply) = Normal None.
Proof.
  intros (-> & -> & Hr). unfold resolveError. simpl. by rewrite Hr.
Qed.

(** C3. When the reply to the first [saslContinue] is not an error, the
    decoded [v] is compared with the expected server signature before
    anything else is sent.  On a mismatch the callback gets the invalid
    signature error and nothing is submitted.  On a match with
    [done === false] exactly one more command is submitted, a
    [saslContinue] with an empty payload, whose reply goes to the
    callback.  On a match with [done] true or absent the callback gets
    the document and nothing is submitted. *)
Theorem server_signature_before_retry (connection : Connection) (db : string)
    (serverSignature : Buffer) (reply : Reply) (r : Document) (b : Buffer) (v : string) :
  ok_reply reply r ->
  payload r = Some (PayloadBinary b) ->
  dict_get (parsePayload (binary_value b)) "v" = Some v ->
  let out := saslContinueCallback connection db serverSignature reply in
  let retry := (db +:+ ".$cmd", SaslContinue (conversationId r) (PayloadBuffer [])) in
  (compareDigest (from_base64 v) serverSignature = false ->
   out = (Called (Some InvalidSignature) ResUndefined, connection))
  /\ (compareDigest (from_base64 v) serverSignature = true ->
      done r = Some false ->
      sent (snd out) = sent connection ++ [retry]
      /\ fst out = pass_reply (server connection (sent connection ++ [retry])))
  /\ (compareDigest (from_base64 v) serverSignature = true ->
      done r <> Some false ->
      out = (Called None (ResDocument r), connection)).
Proof.
  intros Hok Hpayload Hv out retry. subst out retry.
  unfold saslContinueCallback. rewrite (resolveError_ok _ _ Hok).
  destruct Hok as (_ & -> & _). cbn [result]. rewrite Hpayload, Hv.
  split; [| split].
  - by intros ->.
  - by intros -> ->.
  - intros -> Hdone. simpl. by destruct (done r) as [[]|].
Qed.

(** The callback of the first [saslContinue] reports a transport error,
    a server error or the invalid signature, never another error. *)
Lemma saslContinueCallback_error (connection : Connection) (db : string)
    (serverSignature : Buffer) (reply : Reply) (e : Error) (res : CallbackResult) :
  fst (saslContinueCallback connection db serverSignature reply) = Called (Some e) res ->
  reply_error e = true.
Proof.
  unfold saslContinueCallback, resolveError, pass_reply, command.
  repeat case_match; simplify_eq/=; try done.
  1-3: by intros [= <- _].
  all: intros Heq; simplify_eq/=.
  all: by apply fmap_Some in Heq as (u & _ & ->).
Qed.

(** The commands [saslContinueCallback] submits: none, or the empty
    [saslContinue]. *)
Lemma saslContinueCallback_sent (connection : Connection) (db : string)
    (serverSignature : Buffer) (reply : Reply) :
  let connection' := snd (saslContinueCallback connection db serverSignature reply) in
  sent connection' = sent connection
  \/ exists id, sent connection'
                = sent connection ++ [(db +:+ ".$cmd", SaslContinue id (PayloadBuffer []))].
Proof.
  unfold saslContinueCallback, command.
  repeat case_match; simplify_eq/=; eauto.
Qed.

Lemma weak_iterations_true (iterations : JSNumber) :
  weak_iterations iterations = true
  <-> exists k, iterations = Num k /\ k <> 0 /\ k < 4096.
Proof.
  destruct iterations as [|k]; simpl.
  - split; [done | by intros (k & ? & _)].
  - rewrite andb_true_iff, negb_true_iff, Z.eqb_neq, Z.ltb_lt.
    split; [by eauto | by intros (k' & [= ->] & ?)].
Qed.

(** Past the nonce check the callback reports only the errors of the
    [saslContinue] reply. *)
Lemma continue_past_checks (m : CryptoMethod) (serverFirst : Document)
    (authContext : AuthContext) (st : HICache) (n : Buffer) (pw : string) (p : Payload)
    (rnonce : string) (e : Error) (res : CallbackResult) :
  ready m serverFirst authContext n pw p ->
  weak_iterations (server_iterations p) = false ->
  dict_get (server_first_dict p) "r" = Some rnonce ->
  String.prefix "nonce" rnonce = false ->
  fst (fst (continueScramConversation m serverFirst authContext st)) = Called (Some e) res ->
  reply_error e = true.
Proof.
  intros (Hn & Hpw & Hp) Hweak Hr Hprefix.
  unfold server_iterations, server_first_dict in *.
  unfold continueScramConversation. rewrite Hn, Hpw, Hp.
  destruct p as [b|b]; cbn [payload_bytes] in *; rewrite Hweak, Hr, Hprefix.
  all: destruct (dict_get _ "s") as [salt|]; [| done].
  all: destruct (HI _ _ _ _ _) as [[sp|err] st1]; [| done].
  all: destruct (command _ _ _) as [c1 reply].
  all: destruct (saslContinueCallback _ _ _ _) as [o c2] eqn:Hcb.
  all: cbn [fst]; intros ->.
  all: eapply saslContinueCallback_error; by rewrite Hcb.
Qed.

(** C6 (as the code has it). With a nonce, a processed password and a
    payload at hand, the server-first step calls back with the invalid
    iteration count error exactly when [parseInt] of the [i] attribute is
    a number other than zero below 4096; it does so before anything is
    submitted or derived.  A count of zero and a count that is not a
    number pass this check, as does every count from 4096 on. *)
Theorem iteration_count_check (m : CryptoMethod) (serverFirst : Document)
    (authContext : AuthContext) (st : HICache) (n : Buffer) (pw : string) (p : Payload) :
  ready m serverFirst authContext n pw p ->
  (forall k, server_iterations p = Num k -> k <> 0 -> k < 4096 ->
     continueScramConversation m serverFirst authContext st
     = (Called (Some (InvalidIterationCount k)) ResFalse, connection authContext, st))
  /\ (forall k res,
        fst (fst (continueScramConversation m serverFirst authContext st))
        = Called (Some (InvalidIterationCount k)) res ->
        server_iterations p = Num k /\ k <> 0 /\ k < 4096).
Proof.
  intros Hready. split.
  - intros k Hk Hk0 Hk4096. destruct Hready as (Hn & Hpw & Hp).
    unfold server_iterations, server_first_dict in Hk.
    unfold continueScramConversation. rewrite Hn, Hpw, Hp.
    assert (Hweak : weak_iterations (Num k) = true)
      by (apply weak_iterations_true; eauto).
    by destruct p as [b|b]; cbn [payload_bytes] in Hk; rewrite Hk, Hweak.
  - intros k res Hout.
    destruct (weak_iterations (server_iterations p)) eqn:Hweak.
    + pose proof Hweak as (k' & Hk' & Hk0 & Hk4096)%weak_iterations_true.
      destruct Hready as (Hn & Hpw & Hp).
      unfold server_iterations, server_first_dict in *.
      unfold continueScramConversation in Hout. rewrite Hn, Hpw, Hp in Hout.
      destruct p as [b|b]; cbn [payload_bytes] in *;
        rewrite Hweak, Hk' in Hout; by simplify_eq/=.
    + exfalso.
      destruct (dict_get (server_first_dict p) "r") as [rnonce|] eqn:Hr.
      * destruct (String.prefix "nonce" rnonce) eqn:Hprefix.
        -- destruct Hready as (Hn & Hpw & Hp).
           unfold server_iterations, server_first_dict in *.
           unfold continueScramConversation in Hout. rewrite Hn, Hpw, Hp in Hout.
           by destruct p as [b|b]; cbn [payload_bytes] in *;
             rewrite Hweak, Hr, Hprefix in Hout.
        -- by pose proof (continue_past_checks _ _ _ _ _ _ _ _ _ _
                            Hready Hweak Hr Hprefix Hout).
      * destruct Hready as (Hn & Hpw & Hp).
        unfold server_iterations, server_first_dict in *.
        unfold continueScramConversation in Hout. rewrite Hn, Hpw, Hp in Hout.
        by destruct p as [b|b]; cbn [payload_bytes] in *; rewrite Hweak, Hr in Hout.
Qed.

(** C5 (as the code has it). Past the iteration check, the server-first
    step calls back with the invalid nonce error exactly when the
    combined nonce [r] starts with the text [nonce]; it does so before
    anything is submitted.  The client nonce takes no part in the check. *)
Theorem nonce_check (m : CryptoMethod) (serverFirst : Document)
    (authContext : AuthContext) (st : HICache) (n : Buffer) (pw : string) (p : Payload)
    (rnonce : string) :
  ready m serverFirst authContext n pw p ->
  weak_iterations (server_iterations p) = false ->
  dict_get (server_first_dict p) "r" = Some rnonce ->
  (String.prefix "nonce" rnonce = true ->
     continueScramConversation m serverFirst authContext st
     = (Called (Some (InvalidNonce rnonce)) ResFalse, connection authContext, st))
  /\ (forall r' res,
        fst (fst (continueScramConversation m serverFirst authContext st))
        = Called (Some (InvalidNonce r')) res ->
        String.prefix "nonce" rnonce = true).
Proof.
  intros Hready Hweak Hr. split.
  - intros Hprefix. destruct Hready as (Hn & Hpw & Hp).
    unfold server_iterations, server_first_dict in *.
    unfold continueScramConversation. rewrite Hn, Hpw, Hp.
    by destruct p as [b|b]; cbn [payload_bytes] in *; rewrite Hweak, Hr, Hprefix.
  - intros r' res Hout.
    destruct (String.prefix "nonce" rnonce) eqn:Hprefix; [done |].
    by pose proof (continue_past_checks _ _ _ _ _ _ _ _ _ _
                     Hready Hweak Hr Hprefix Hout).
Qed.

(** C2. When the server-first message passes the checks and the salted
    password is derived, the first [saslContinue] and the signature check
    rest on one AuthMessage: the client-first-bare text, a comma, the
    text of the server payload as received, a comma, and [c=biws,r=]
    followed by the combined nonce.  The client proof in the submitted
    payload is made with the client signature over it, and the reply is
    checked against the server signature over it. *)
Theorem authMessage_shared (m : CryptoMethod) (serverFirst : Document)
    (authContext : AuthContext) (st st1 : HICache) (n : Buffer) (pw : string)
    (p : Payload) (rnonce salt : string) (saltedPassword : Buffer) :
  ready m serverFirst authContext n pw p ->
  weak_iterations (server_iterations p) = false ->
  dict_get (server_first_dict p) "r" = Some rnonce ->
  String.prefix "nonce" rnonce = false ->
  dict_get (server_first_dict p) "s" = Some salt ->
  HI st pw (from_base64 salt) (server_iterations p) m = (Normal saltedPassword, st1) ->
  let authMessage :=
    authMessage_spec
      (toString_utf8
         (clientFirstMessageBare (cleanUsername (username (credentials authContext))) n))
      (binary_value (payload_bytes p)) rnonce in
  let clientKey := HMAC m saltedPassword "Client Key" in
  let clientSignature := HMAC m (H m clientKey) authMessage in
  let serverSignature := HMAC m (HMAC m saltedPassword "Server Key") authMessage in
  let clientFinal :=
    "c=biws,r=" +:+ rnonce +:+ ",p=" +:+ xor (IsBuffer clientKey) (IsBuffer clientSignature) in
  let sending :=
    command (connection authContext) (cmd_ns authContext)
      (SaslContinue (conversationId serverFirst) (PayloadBinary (utf8_encode clientFinal))) in
  continueScramConversation m serverFirst authContext st
  = (saslContinueCallback (fst sending) (source (credentials authContext))
       serverSignature (snd sending), st1).
Proof.
  intros (Hn & Hpw & Hp) Hweak Hr Hprefix Hs HHI. cbv zeta.
  unfold server_iterations, server_first_dict, cmd_ns, authMessage_spec in *.
  unfold continueScramConversation. rewrite Hn, Hpw, Hp.
  destruct p as [b|b]; cbn [payload_bytes] in *;
    rewrite Hweak, Hr, Hprefix, Hs, HHI; cbn [String.concat fst snd command];
    by destruct (saslContinueCallback _ _ _ _).
Qed.

(** [passwordDigest] refuses what is not a string and the empty password,
    in this order, and digests [username:mongo:password] otherwise. *)
Lemma passwordDigest_cases (u p : JSValue) :
  passwordDigest u p
  = match u, p with
    | JSOther, _ => Throw UsernameNotString
    | JSString _, JSOther => Throw PasswordNotString
    | JSString _, JSString "" => Throw PasswordEmpty
    | JSString u, JSString p => Normal (md5_hex (u +:+ ":mongo:" +:+ p))
    end.
Proof. by destruct u as [u|], p as [[|c p]|]. Qed.

(** C8 (as the code has it). With SHA-1 and an empty password the
    attempt fails with the empty password error, and the server-first
    step that raises it submits nothing.  On the full path the error
    comes after the [saslStart] round trip: [executeScram] has submitted
    [saslStart], and that command only, when the attempt ends, and it
    ends with the empty password error when the reply is not an error. *)
Theorem empty_password_after_saslStart (serverFirst : Document)
    (authContext : AuthContext) (st : HICache) (n : Buffer) :
  nonce authContext = Some n ->
  password (credentials authContext) = "" ->
  let saslStart :=
    (cmd_ns authContext, makeFirstMessage sha1 (credentials authContext) n) in
  let out := executeScram sha1 authContext st in
  continueScramConversation sha1 serverFirst authContext st
  = (Called (Some PasswordEmpty) ResUndefined, connection authContext, st)
  /\ sent (snd (fst out)) = sent (connection authContext) ++ [saslStart]
  /\ (forall r,
        ok_reply (server (connection authContext)
                    (sent (connection authContext) ++ [saslStart])) r ->
        fst (fst out) = Called (Some PasswordEmpty) ResUndefined).
Proof.
  intros Hn Hpass. cbv zeta.
  assert (Hc : forall first c,
             continueScramConversation sha1 first (with_connection authContext c) st
             = (Called (Some PasswordEmpty) ResUndefined, c, st)).
  { intros first c. unfold continueScramConversation, with_connection.
    cbn [nonce credentials connection]. rewrite Hn, Hpass. done. }
  split; [| split].
  - unfold continueScramConversation. by rewrite Hn, Hpass.
  - unfold executeScram, cmd_ns, command. rewrite Hn.
    destruct (resolveError _ _) as [[err|]|err]; [done | | done].
    destruct (reply_result _) as [[[r|]]|]; [| done | done].
    cbn [result]. by rewrite Hc.
  - intros r Hok. unfold executeScram, cmd_ns, command in *. rewrite Hn.
    rewrite (resolveError_ok _ _ Hok). destruct Hok as (_ & -> & _).
    cbn [result]. by rewrite Hc.
Qed.

End ConversationFacts.

(** ** The theorems at concrete conversations *)

Module Runs.
Import Example.

(** The server-first message of the specification's first scenario. *)
Definition server_first : string :=
  "r=fyko+d2lbbFgONRv9qkxdawL3rfcNHYJY1ZVvWVs7j,s=QSXCR+Q6sek8bf92,i=4096".

Definition user_pencil (first : string) : AuthContext :=
  context "user" "pencil" (doc first None) (doc "v=AAAA" (Some false)).

Definition no_nonce : AuthContext :=
  {| connection := connection (user_pencil server_first);
     credentials := credentials (user_pencil server_first);
     nonce := None;
     response := None |}.

Definition final_reply (d : option bool) : Reply :=
  {| reply_err := None; reply_result := Some {| result := Some (doc "v=AAAA" d) |} |}.

(** The salted password of the example runtime for "pencil", and the
    cache once it is stored. *)
Definition salted : Buffer :=
  digest 32 (utf8_encode "pencil" ++ decode_base64 "QSXCR+Q6sek8bf92").

Definition cache1 : HICache :=
  snd (HI empty_cache "pencil" (decode_base64 "QSXCR+Q6sek8bf92") (Num 4096) sha256).

Definition no_password : AuthContext :=
  context "user" "" (doc server_first None) (doc "v=AAAA" (Some false)).

End Runs.

Lemma no_nonce_no_command_witness :
  nonce Runs.no_nonce = None
  /\ @executeScram Example.runtime sha1 Runs.no_nonce Example.empty_cache
     = (Called (Some NoNonceExecute) ResUndefined, connection Runs.no_nonce,
        Example.empty_cache).
Proof.
  split; [reflexivity |].
  exact (proj1 (@no_nonce_no_command Example.runtime sha1
                  (Example.doc Runs.server_first None) Runs.no_nonce
                  Example.empty_cache eq_refl)).
Defined.

Lemma server_signature_before_retry_witness :
  let connection := connection (Runs.user_pencil Runs.server_first) in
  @compareDigest Example.runtime (@from_base64 Example.runtime "AAAA") [1; 2; 3] = false
  /\ @saslContinueCallback Example.runtime connection "admin" [1; 2; 3]
       (Runs.final_reply (Some false))
     = (Called (Some InvalidSignature) ResUndefined, connection).
Proof.
  split; [reflexivity |].
  refine (proj1 (@server_signature_before_retry Example.runtime _ "admin" [1; 2; 3]
                   (Runs.final_reply (Some false)) (Example.doc "v=AAAA" (Some false))
                   (utf8_encode "v=AAAA") "AAAA" _ _ _) _).
  - repeat split.
  - reflexivity.
  - by vm_compute.
  - reflexivity.
Defined.

Lemma iteration_count_check_witness :
  let serverFirst := "r=fyko+d2lbbFgONRv9qkxdawL3rfcNHYJY1ZVvWVs7j,s=QSXCR+Q6sek8bf92,i=2048" in
  @continueScramConversation Example.runtime sha256 (Example.doc serverFirst None)
    (Runs.user_pencil serverFirst) Example.empty_cache
  = (Called (Some (InvalidIterationCount 2048)) ResFalse,
     connection (Runs.user_pencil serverFirst), Example.empty_cache).
Proof.
  intros serverFirst.
  refine (proj1 (@iteration_count_check Example.runtime sha256
                   (Example.doc serverFirst None) (Runs.user_pencil serverFirst)
                   Example.empty_cache Example.client_nonce "pencil"
                   (PayloadBinary (utf8_encode serverFirst)) _) 2048 _ _ _).
  - repeat split.
  - by vm_compute.
  - lia.
  - lia.
Defined.

(** C6 (as the spec has it) fails: a count of zero and a count that is
    not a number are not weak for the check, and the step goes on to
    derive the salted password with them. *)
Lemma zero_and_nan_iterations_pass :
  let zero := "r=fyko+d2lbbFgONRv9qkxdawL3rfcNHYJY1ZVvWVs7j,s=QSXCR+Q6sek8bf92,i=0" in
  let nan := "r=fyko+d2lbbFgONRv9qkxdawL3rfcNHYJY1ZVvWVs7j,s=QSXCR+Q6sek8bf92,i=many" in
  weak_iterations (parseInt (dict_get (parsePayload zero) "i")) = false
  /\ weak_iterations (parseInt (dict_get (parsePayload nan) "i")) = false
  /\ fst (fst (@continueScramConversation Example.runtime sha256 (Example.doc zero None)
                 (Runs.user_pencil zero) Example.empty_cache))
     = Thrown (ExternalError "iterations")
  /\ fst (fst (@continueScramConversation Example.runtime sha256 (Example.doc nan None)
                 (Runs.user_pencil nan) Example.empty_cache))
     = Thrown (ExternalError "iterations").
Proof. repeat split; by vm_compute. Qed.

Lemma nonce_check_witness :
  let serverFirst := "r=nonce123,s=QSXCR+Q6sek8bf92,i=4096" in
  @continueScramConversation Example.runtime sha256 (Example.doc serverFirst None)
    (Runs.user_pencil serverFirst) Example.empty_cache
  = (Called (Some (InvalidNonce "nonce123")) ResFalse,
     connection (Runs.user_pencil serverFirst), Example.empty_cache).
Proof.
  intros serverFirst.
  refine (proj1 (@nonce_check Example.runtime sha256
                   (Example.doc serverFirst None) (Runs.user_pencil serverFirst)
                   Example.empty_cache Example.client_nonce "pencil"
                   (PayloadBinary (utf8_encode serverFirst)) "nonce123" _ _ _) _).
  - repeat split.
  - by vm_compute.
  - by vm_compute.
  - reflexivity.
Defined.

(** C5 (as the spec has it) fails: a combined nonce that does not start
    with the client nonce is not rejected; the client final message is
    submitted. *)
Lemma foreign_nonce_not_rejected :
  let serverFirst := "r=AAAAfyko+d2lbbFgONRv9qkxdawL3rfc,s=QSXCR+Q6sek8bf92,i=4096" in
  let out := @continueScramConversation Example.runtime sha256 (Example.doc serverFirst None)
               (Runs.user_pencil serverFirst) Example.empty_cache in
  String.prefix (toString_base64 Example.client_nonce) "AAAAfyko+d2lbbFgONRv9qkxdawL3rfc" = false
  /\ fst (fst out) = Called (Some InvalidSignature) ResUndefined
  /\ length (sent (snd (fst out))) = 1%nat.
Proof. repeat split; by vm_compute. Qed.

Lemma authMessage_shared_witness :
  let authContext := Runs.user_pencil Runs.server_first in
  let authMessage :=
    authMessage_spec "n=user,r=fyko+d2lbbFgONRv9qkxdawL" Runs.server_first
      "fyko+d2lbbFgONRv9qkxdawL3rfcNHYJY1ZVvWVs7j" in
  let clientKey := @HMAC Example.runtime sha256 Runs.salted "Client Key" in
  let clientSignature :=
    @HMAC Example.runtime sha256 (@H Example.runtime sha256 clientKey) authMessage in
  let serverSignature :=
    @HMAC Example.runtime sha256
      (@HMAC Example.runtime sha256 Runs.salted "Server Key") authMessage in
  let clientFinal :=
    "c=biws,r=fyko+d2lbbFgONRv9qkxdawL3rfcNHYJY1ZVvWVs7j,p="
      +:+ xor (IsBuffer clientKey) (IsBuffer clientSignature) in
  let sending :=
    command (connection authContext) "admin.$cmd"
      (SaslContinue (Some 1) (PayloadBinary (utf8_encode clientFinal))) in
  @continueScramConversation Example.runtime sha256 (Example.doc Runs.server_first None)
    authContext Example.empty_cache
  = (@saslContinueCallback Example.runtime (fst sending) "admin" serverSignature
       (snd sending), Runs.cache1).
Proof.
  cbv zeta. etransitivity.
  - refine (@authMessage_shared Example.runtime sha256 (Example.doc Runs.server_first None)
              (Runs.user_pencil Runs.server_first) Example.empty_cache Runs.cache1
              Example.client_nonce "pencil" (PayloadBinary (utf8_encode Runs.server_first))
              "fyko+d2lbbFgONRv9qkxdawL3rfcNHYJY1ZVvWVs7j" "QSXCR+Q6sek8bf92" Runs.salted
              _ _ _ _ _ _).
    + repeat split.
    + vm_compute; reflexivity.
    + vm_compute; reflexivity.
    + reflexivity.
    + vm_compute; reflexivity.
    + vm_compute; reflexivity.
  - vm_compute; reflexivity.
Defined.

Lemma empty_password_after_saslStart_witness :
  nonce Runs.no_password = Some Example.client_nonce
  /\ password (credentials Runs.no_password) = ""
  /\ @continueScramConversation Example.runtime sha1 (Example.doc Runs.server_first None)
       Runs.no_password Example.empty_cache
     = (Called (Some PasswordEmpty) ResUndefined, connection Runs.no_password,
        Example.empty_cache).
Proof.
  split; [reflexivity |]. split; [reflexivity |].
  exact (proj1 (@empty_password_after_saslStart Example.runtime
                  (Example.doc Runs.server_first None) Runs.no_password
                  Example.empty_cache Example.client_nonce eq_refl eq_refl)).
Defined.

(** C8 (as the spec has it) fails: on the full path with SHA-1 and an
    empty password the error is raised after [saslStart] has been
    submitted and answered. *)
Lemma empty_password_raised_after_io :
  let out := @executeScram Example.runtime sha1 Runs.no_password Example.empty_cache in
  fst (fst out) = Called (Some PasswordEmpty) ResUndefined
  /\ sent (connection Runs.no_password) = []
  /\ sent (snd (fst out))
     = [("admin.$cmd",
         SaslStart "SCRAM-SHA-1"
           (PayloadBinary (utf8_encode "n,,n=user,r=fyko+d2lbbFgONRv9qkxdawL")))].
Proof. repeat split; by vm_compute. Qed.

(** * Further properties of the provider *)

(** ** [cleanUsername] *)

Lemma replace_first_absent (c : ascii) (by_ s : string) :
  occurs c s = false -> replace_first c by_ s = s.
Proof.
  induction s as [|x s IH]; simpl; [done |].
  intros [Hx Hs]%orb_false_elim. rewrite Hx. by rewrite IH.
Qed.

Lemma replace_first_app (c : ascii) (by_ a b : string) :
  occurs c a = false ->
  replace_first c by_ (a +:+ String c b) = a +:+ by_ +:+ b.
Proof.
  induction a as [|x a IH]; simpl.
  - by rewrite Ascii.eqb_refl.
  - intros [Hx Ha]%orb_false_elim. rewrite Hx. by rewrite IH.
Qed.

Lemma replace_first_app_absent (c : ascii) (by_ a b : string) :
  occurs c a = false ->
  replace_first c by_ (a +:+ b) = a +:+ replace_first c by_ b.
Proof.
  induction a as [|x a IH]; simpl; [done |].
  intros [Hx Ha]%orb_false_elim. rewrite Hx. by rewrite IH.
Qed.

(** X1. A username without [=] and without [,] is sent as it is. *)
Theorem cleanUsername_plain (username : string) :
  plain username = true -> cleanUsername username = username.
Proof.
  unfold plain, cleanUsername.
  intros [Hc He]%andb_true_iff. apply negb_true_iff in Hc, He.
  by rewrite (replace_first_absent _ _ _ He), (replace_first_absent _ _ _ Hc).
Qed.

Lemma cleanUsername_plain_witness :
  plain "user" = true /\ cleanUsername "user" = "user".
Proof. split; [reflexivity | exact (cleanUsername_plain "user" eq_refl)]. Defined.

(** X2. Only the first [=] is escaped: in a username [a=b] whose part
    [a] has neither [=] nor [,], the first [=] becomes [=3D] and what
    follows keeps its [=] characters, whatever their number; of the
    commas of [b] the first alone becomes [=2C]. *)
Theorem cleanUsername_first_only (a b : string) :
  plain a = true ->
  cleanUsername (a +:+ String "="%char b)
  = a +:+ "=3D" +:+ replace_first ","%char "=2C" b
  /\ (occurs ","%char b = false ->
      cleanUsername (a +:+ String "="%char b) = a +:+ "=3D" +:+ b).
Proof.
  unfold plain, cleanUsername.
  intros [Hc He]%andb_true_iff. apply negb_true_iff in Hc, He.
  rewrite (replace_first_app _ _ _ _ He).
  rewrite (replace_first_app_absent _ _ a _ Hc).
  change (replace_first ","%char "=2C" ("=3D" +:+ b))
    with ("=3D" +:+ replace_first ","%char "=2C" b).
  split; [done |]. intros Hb. by rewrite (replace_first_absent _ _ _ Hb).
Qed.

Lemma cleanUsername_first_only_witness :
  plain "a" = true /\ cleanUsername "a=b=c" = "a=3Db=c".
Proof.
  split; [reflexivity |].
  exact (proj2 (cleanUsername_first_only "a" "b=c" eq_refl) eq_refl).
Defined.

(** ** The salted-password cache: capacity and keys *)

Section CacheFacts.
Context `{Runtime}.

(** X3. [HI] keeps the counter equal to the number of entries and never
    lets the cache grow beyond 200 entries. *)
Theorem HI_cache_ok (st : HICache) (data : string) (salt : Buffer)
    (iterations : JSNumber) (m : CryptoMethod) :
  cache_ok st -> cache_ok (snd (HI st data salt iterations m)).
Proof.
  intros [Hcount Hmax]. unfold HI.
  destruct (_hiCache st !! _) as [cached|] eqn:Hmiss; [done |].
  destruct (pbkdf2Sync _ _ _ _ _) as [v|e]; [| done].
  unfold cache_ok. cbn [snd _hiCache _hiCacheCount].
  destruct (200 <=? _hiCacheCount st) eqn:Hfull.
  - cbn [_hiCachePurge _hiCache _hiCacheCount].
    rewrite map_size_insert_None by apply lookup_empty.
    rewrite map_size_empty. lia.
  - apply Z.leb_gt in Hfull.
    rewrite map_size_insert_None by done. lia.
Qed.

(** X4. A miss on a cache with fewer than 200 entries keeps every entry
    and adds the new one; a miss on a cache with 200 entries drops them
    all and leaves the new entry alone. *)
Theorem HI_capacity (st : HICache) (data : string) (salt : Buffer)
    (iterations : JSNumber) (m : CryptoMethod) (v : Buffer) :
  cache_ok st ->
  _hiCache st !! HI_key data salt iterations = None ->
  pbkdf2Sync data salt iterations (hiLengthMap m) m = Normal v ->
  let st' := snd (HI st data salt iterations m) in
  ((size (_hiCache st) < 200)%nat ->
     _hiCache st' = <[HI_key data salt iterations := v]> (_hiCache st)
     /\ size (_hiCache st') = S (size (_hiCache st)))
  /\ (size (_hiCache st) = 200%nat ->
        _hiCache st' = {[HI_key data salt iterations := v]}
        /\ size (_hiCache st') = 1%nat).
Proof.
  intros [Hcount Hmax] Hmiss Hv. unfold HI. rewrite Hmiss, Hv.
  cbn [snd _hiCache]. split; intros Hsize.
  - destruct (200 <=? _hiCacheCount st) eqn:Hfull; [apply Z.leb_le in Hfull; lia |].
    split; [done |]. by rewrite map_size_insert_None.
  - destruct (200 <=? _hiCacheCount st) eqn:Hfull; [| apply Z.leb_gt in Hfull; lia].
    cbn [_hiCachePurge _hiCache]. split; [done |].
    rewrite map_size_insert_None by apply lookup_empty. by rewrite map_size_empty.
Qed.

End CacheFacts.

Lemma example_cache_ok : cache_ok Example.empty_cache.
Proof. split; [reflexivity | simpl; lia]. Qed.

Lemma HI_cache_ok_witness :
  cache_ok Example.empty_cache
  /\ cache_ok (snd (@HI Example.runtime Example.empty_cache "pencil" [1; 2; 3]
                      (Num 4096) sha1)).
Proof.
  split; [exact example_cache_ok |].
  exact (@HI_cache_ok Example.runtime Example.empty_cache "pencil" [1; 2; 3]
           (Num 4096) sha1 example_cache_ok).
Defined.

Lemma HI_capacity_witness :
  let st' := snd (@HI Example.runtime Example.empty_cache "pencil" [1; 2; 3]
                    (Num 4096) sha1) in
  size (_hiCache st') = 1%nat.
Proof.
  refine (proj2 (proj1 (@HI_capacity Example.runtime Example.empty_cache "pencil"
                          [1; 2; 3] (Num 4096) sha1
                          (Example.digest 20 (utf8_encode "pencil" ++ [1; 2; 3]))
                          example_cache_ok _ _) _)).
  - reflexivity.
  - vm_compute; reflexivity.
  - vm_compute; lia.
Defined.

Lemma append_assoc (a b c : string) : (a +:+ b) +:+ c = a +:+ b +:+ c.
Proof.
  induction a as [|x a IH]; [done |].
  change (String x ((a +:+ b) +:+ c) = String x (a +:+ b +:+ c)). by rewrite IH.
Qed.

Lemma occurs_app (c : ascii) (a b : string) :
  occurs c (a +:+ b) = occurs c a || occurs c b.
Proof.
  induction a as [|x a IH]; simpl; [done |]. by rewrite IH, orb_assoc.
Qed.

(** A text is cut in one way only at its last separator. *)
Lemma last_separator (sep : ascii) (a1 a2 x1 x2 : string) :
  occurs sep x1 = false -> occurs sep x2 = false ->
  a1 +:+ String sep x1 = a2 +:+ String sep x2 ->
  a1 = a2 /\ x1 = x2.
Proof.
  intros Hx1 Hx2. revert a2.
  induction a1 as [|c a1 IH]; intros [|c' a2]; simpl; intros Heq.
  - by simplify_eq.
  - injection Heq as <- ->. exfalso.
    rewrite occurs_app in Hx1. simpl in Hx1.
    rewrite Ascii.eqb_refl in Hx1. by destruct (occurs sep a2).
  - injection Heq as -> <-. exfalso.
    rewrite occurs_app in Hx2. simpl in Hx2.
    rewrite Ascii.eqb_refl in Hx2. by destruct (occurs sep a1).
  - injection Heq as -> Heq. by destruct (IH _ Heq) as [-> ->].
Qed.

Lemma b64_char_not (c : ascii) (z : Z) :
  occurs c (b64_alphabet +:+ "=") = false -> Ascii.eqb (b64_char z) c = false.
Proof.
  unfold b64_char. generalize (Z.to_nat (Z.land z 63)). intros n Hc.
  simpl in Hc. repeat (apply orb_false_elim in Hc as [? Hc]).
  do 64 (destruct n as [|n]; [done |]). simpl. done.
Qed.

Lemma toString_base64_chars (c : ascii) (b : Buffer) :
  occurs c (b64_alphabet +:+ "=") = false -> occurs c (toString_base64 b) = false.
Proof.
  intros Hc.
  assert (Heq : Ascii.eqb "="%char c = false).
  { simpl in Hc. repeat (apply orb_false_elim in Hc as [? Hc]). done. }
  assert (Hn : forall n (b : Buffer), (length b <= n)%nat ->
                 occurs c (toString_base64 b) = false).
  { intros n. induction n as [|n IH]; intros b' Hlen.
    - destruct b'; [done | simpl in Hlen; lia].
    - destruct b' as [|x [|y [|z r]]]; cbn [toString_base64 occurs];
        rewrite ?(b64_char_not c _ Hc), ?Heq; cbn [orb]; [done | done | done |].
      apply IH. simpl in Hlen. lia. }
  by apply (Hn (length b)).
Qed.

Lemma pretty_N_go_chars (c : ascii) (x : N) (s : string) :
  occurs c "0123456789" = false ->
  occurs c (pretty_N_go x s) = occurs c s.
Proof.
  intros Hc. revert s. induction (N.lt_wf_0 x) as [x _ IH]; intros s.
  assert (x = 0 \/ 0 < x)%N as [-> | Hx] by lia.
  - by rewrite pretty_N_go_0.
  - rewrite pretty_N_go_step by done.
    rewrite IH by (by apply N.div_lt). cbn [occurs].
    generalize (x `mod` 10)%N. intros n.
    assert (Hn : Ascii.eqb (pretty_N_char n) c = false); [| by rewrite Hn].
    cbn [occurs] in Hc. repeat (apply orb_false_elim in Hc as [? Hc]).
    unfold pretty_N_char. by repeat case_match.
Qed.

Lemma pretty_Z_chars (c : ascii) (z : Z) :
  occurs c "0123456789-" = false -> occurs c (pretty z) = false.
Proof.
  intros Hc.
  assert (Hd : occurs c "0123456789" = false).
  { cbn [occurs] in *. repeat (apply orb_false_elim in Hc as [? Hc]).
    repeat (apply orb_false_intro; [done |]). done. }
  assert (Hp : forall p : positive, occurs c (pretty (N.pos p)) = false).
  { intros p. unfold pretty, pretty_N. case_decide; [done |].
    by rewrite pretty_N_go_chars. }
  destruct z as [|p|p].
  - cbn [occurs] in Hd. apply orb_false_elim in Hd as [H0 _].
    change (pretty 0) with "0". cbn [occurs]. by rewrite H0.
  - apply Hp.
  - change (pretty (Z.neg p)) with ("-" +:+ pretty (N.pos p)).
    rewrite occurs_app, Hp. cbn [occurs] in *.
    do 10 (apply orb_false_elim in Hc as [_ Hc]).
    apply orb_false_elim in Hc as [-> _]. done.
Qed.

Lemma number_toString_chars (c : ascii) (n : JSNumber) :
  occurs c "0123456789-NaN" = false -> occurs c (number_toString n) = false.
Proof.
  intros Hc. destruct n as [|z]; cbn [number_toString].
  - cbn [occurs] in *. do 11 (apply orb_false_elim in Hc as [_ Hc]). done.
  - apply pretty_Z_chars. cbn [occurs] in *.
    repeat (apply orb_false_elim in Hc as [? Hc]).
    repeat (apply orb_false_intro; [done |]). done.
Qed.

Lemma number_toString_inj (n1 n2 : JSNumber) :
  number_toString n1 = number_toString n2 -> n1 = n2.
Proof.
  assert (HN : forall z, number_toString (Num z) <> "NaN").
  { intros z Heq. cbn [number_toString] in Heq.
    pose proof (pretty_Z_chars "N"%char z eq_refl) as Ha.
    rewrite Heq in Ha. discriminate. }
  destruct n1 as [|z1], n2 as [|z2]; intros Heq.
  - done.
  - by destruct (HN z2).
  - by destruct (HN z1).
  - f_equal. by apply (inj pretty).
Qed.

(** X5. The cache key determines the data, the base64 text of the salt
    and the iteration count: two calls that differ in one of them never
    share an entry. *)
Theorem HI_key_inj (data1 data2 : string) (salt1 salt2 : Buffer) (i1 i2 : JSNumber) :
  HI_key data1 salt1 i1 = HI_key data2 salt2 i2 ->
  data1 = data2 /\ toString_base64 salt1 = toString_base64 salt2 /\ i1 = i2.
Proof.
  unfold HI_key. cbn [String.concat]. intros Heq.
  change (data1 +:+ "_" +:+ toString_base64 salt1 +:+ "_" +:+ number_toString i1)
    with (data1 +:+ String "_"%char (toString_base64 salt1 +:+ String "_"%char
                                        (number_toString i1))) in Heq.
  change (data2 +:+ "_" +:+ toString_base64 salt2 +:+ "_" +:+ number_toString i2)
    with (data2 +:+ String "_"%char (toString_base64 salt2 +:+ String "_"%char
                                        (number_toString i2))) in Heq.
  change (?a +:+ String "_"%char (?b +:+ String "_"%char ?c))
    with (a +:+ (String "_"%char b +:+ String "_"%char c)) in Heq.
  rewrite <- !append_assoc in Heq.
  apply last_separator in Heq as [Heq Hi];
    [| by apply number_toString_chars | by apply number_toString_chars].
  apply last_separator in Heq as [Hd Hs];
    [| by apply toString_base64_chars | by apply toString_base64_chars].
  split; [done |]. split; [done |]. by apply number_toString_inj.
Qed.

Lemma HI_key_inj_witness :
  HI_key "pencil" [1; 2; 3] (Num 4096) = HI_key "pencil" [1; 2; 3] (Num 4096)
  /\ "pencil" = "pencil".
Proof.
  split; [reflexivity |].
  exact (proj1 (HI_key_inj "pencil" "pencil" [1; 2; 3] [1; 2; 3] (Num 4096) (Num 4096)
                  eq_refl)).
Defined.

(** ** [parsePayload] on well-formed attribute lists *)







(** ** The first message *)

Lemma utf8_encode_app (a b : string) :
  utf8_encode (a +:+ b) = utf8_encode a ++ utf8_encode b.
Proof.
  induction a as [|c a IH]; simpl; [done |]. by rewrite IH, app_assoc.
Qed.

(** X7. The payload of [saslStart] is the UTF-8 text
    [n,,n=<user>,r=<nonce>] with the escaped user name and the base64
    text of the nonce; after the header [n,,] it is the client-first-bare
    message byte for byte, and the mechanism follows the method. *)
Theorem makeFirstMessage_text (m : CryptoMethod) (credentials : MongoCredentials)
    (nonce : Buffer) :
  let bare := "n=" +:+ cleanUsername (username credentials) +:+ ",r="
                +:+ toString_base64 nonce in
  clientFirstMessageBare (cleanUsername (username credentials)) nonce = utf8_encode bare
  /\ makeFirstMessage m credentials nonce
     = SaslStart (match m with sha1 => "SCRAM-SHA-1" | sha256 => "SCRAM-SHA-256" end)
         (PayloadBinary (utf8_encode ("n,," +:+ bare))).
Proof.
  cbv zeta. unfold makeFirstMessage, clientFirstMessageBare.
  rewrite !utf8_encode_app. by split.
Qed.

(** ** [xor] *)

(** X8. [xor] does not depend on the order of its arguments. *)
Theorem xor_comm (a b : BufferLike) : xor a b = xor b a.
Proof.
  unfold xor, xor_buffer, xor_res. rewrite Nat.max_comm.
  do 2 f_equal. apply list_fmap_ext. intros i x _. apply Z.lxor_comm.
Qed.

(** ** What the conversation submits *)

Section TraceFacts.
Context `{Runtime}.

Lemma saslContinueCallback_server (c : Connection) (db : string) (sig : Buffer)
    (reply : Reply) :
  server (snd (saslContinueCallback c db sig reply)) = server c.
Proof.
  unfold saslContinueCallback, command. by repeat case_match; simplify_eq/=.
Qed.

(** X9. Whatever the server answers, the server-first step submits, in
    this order and to [<source>.$cmd]: nothing, or one [saslContinue]
    with the conversation id of the server-first reply, or that one and
    a [saslContinue] with an empty payload.  It never submits a
    [saslStart]. *)
Theorem continueScramConversation_trace (m : CryptoMethod) (serverFirst : Document)
    (authContext : AuthContext) (st : HICache) :
  let connection' := snd (fst (continueScramConversation m serverFirst authContext st)) in
  exists cmds,
    sent connection' = sent (connection authContext) ++ cmds
    /\ continue_trace (cmd_ns authContext) (conversationId serverFirst) cmds
    /\ server connection' = server (connection authContext).
Proof.
  cbv zeta. unfold continueScramConversation, cmd_ns.
  assert (Hnone : exists cmds,
             sent (connection authContext) = sent (connection authContext) ++ cmds
             /\ continue_trace (source (credentials authContext) +:+ ".$cmd")
                  (conversationId serverFirst) cmds
             /\ server (connection authContext) = server (connection authContext)).
  { exists []. rewrite app_nil_r. split; [done |]. split; [by left | done]. }
  repeat case_match; simplify_eq/=; try exact Hnone.
  all: match goal with
       | Hcb : saslContinueCallback ?c ?db ?sig ?reply = (_, ?c') |- _ =>
           pose proof (saslContinueCallback_sent c db sig reply) as Hsent;
           pose proof (saslContinueCallback_server c db sig reply) as Hserver;
           rewrite Hcb in Hsent, Hserver; cbn [snd] in Hsent, Hserver
       end.
  all: match goal with
       | Hcmd : command _ _ _ = _ |- _ => unfold command in Hcmd; simplify_eq/=
       end.
  all: destruct Hsent as [Hsent | [id Hsent]]; rewrite Hsent, Hserver.
  all: try (by eexists [_]; split; [done |]; split; [right; left; eauto | done]).
  all: by eexists [_; _]; split; [by rewrite <- app_assoc |];
         split; [right; right; eauto | done].
Qed.

(** X10. With a nonce in the context, the full conversation submits
    [saslStart] first and then what the server-first step submits; with
    a speculative reply of the handshake, [auth] submits no [saslStart]
    at all. *)
Theorem auth_trace (m : CryptoMethod) (authContext : AuthContext) (st : HICache) :
  let connection' := snd (fst (auth m authContext st)) in
  (forall hs speculative,
     response authContext = Some hs -> speculativeAuthenticate hs = Some speculative ->
     exists cmds,
       sent connection' = sent (connection authContext) ++ cmds
       /\ continue_trace (cmd_ns authContext) (conversationId speculative) cmds)
  /\ (forall n,
        (forall hs, response authContext = Some hs -> speculativeAuthenticate hs = None) ->
        nonce authContext = Some n ->
        exists cmds id,
          sent connection'
          = sent (connection authContext)
              ++ (cmd_ns authContext, makeFirstMessage m (credentials authContext) n) :: cmds
          /\ continue_trace (cmd_ns authContext) id cmds).
Proof.
  cbv zeta. split.
  - intros hs speculative Hr Hs. unfold auth. rewrite Hr, Hs.
    destruct (continueScramConversation_trace m speculative authContext st)
      as (cmds & Hsent & Htrace & _).
    by exists cmds.
  - intros n Hspec Hn.
    assert (Hauth : auth m authContext st = executeScram m authContext st).
    { unfold auth. destruct (response authContext) as [hs|]; [| done].
      by rewrite (Hspec hs eq_refl). }
    rewrite Hauth. unfold executeScram, cmd_ns, command. rewrite Hn.
    set (c1 := {| sent := _; server := _ |}).
    assert (Hone : exists cmds id,
               sent c1 = sent (connection authContext)
                         ++ (source (credentials authContext) +:+ ".$cmd",
                             makeFirstMessage m (credentials authContext) n) :: cmds
               /\ continue_trace (source (credentials authContext) +:+ ".$cmd") id cmds).
    { exists [], None. split; [done | by left]. }
    destruct (resolveError _ _) as [[err|]|err]; [done | | done].
    destruct (reply_result _) as [[[r|]]|]; [| done | done].
    cbn [result].
    destruct (continueScramConversation_trace m r (with_connection authContext c1) st)
      as (cmds & Hsent & Htrace & _).
    exists cmds, (conversationId r). cbv zeta in Hsent. rewrite Hsent.
    subst c1. unfold cmd_ns, with_connection in *.
    cbn [connection credentials sent] in *.
    split; [by rewrite <- app_assoc | done].
Qed.

(** X11. When the reply to [saslStart] is a transport error, or a
    document with [$err] or [errmsg], the callback gets that error (the
    transport error first) and the attempt ends there: [saslStart] is
    the only command submitted and the cache is as it was. *)
Theorem executeScram_reply_error (m : CryptoMethod) (authContext : AuthContext)
    (st : HICache) (n : Buffer) :
  nonce authContext = Some n ->
  let saslStart := (cmd_ns authContext, makeFirstMessage m (credentials authContext) n) in
  let reply := server (connection authContext) (sent (connection authContext) ++ [saslStart]) in
  let after := {| sent := sent (connection authContext) ++ [saslStart];
                  server := server (connection authContext) |} in
  (forall e, reply_err reply = Some e ->
     executeScram m authContext st
     = (Called (Some (TransportError e)) ResUndefined, after, st))
  /\ (forall r, reply_err reply = None ->
        reply_result reply = Some {| result := Some r |} ->
        truthy (dollar_err r) || truthy (errmsg r) = true ->
        executeScram m authContext st
        = (Called (Some (ServerError r)) ResUndefined, after, st)).
Proof.
  intros Hn. cbv zeta. unfold executeScram, cmd_ns, command. rewrite Hn.
  split.
  - intros e He. unfold resolveError. by rewrite He.
  - intros r He Hr Herr. unfold resolveError. rewrite He, Hr. cbn [result].
    by rewrite Herr.
Qed.

(** X12. When the reply to the first [saslContinue] is a transport
    error, or a document with [$err] or [errmsg], the callback gets that
    error and nothing is submitted again, whatever the document says of
    [done]. *)
Theorem saslContinue_reply_error (c : Connection) (db : string) (serverSignature : Buffer)
    (reply : Reply) :
  (forall e, reply_err reply = Some e ->
     saslContinueCallback c db serverSignature reply
     = (Called (Some (TransportError e)) ResUndefined, c))
  /\ (forall r, reply_err reply = None ->
        reply_result reply = Some {| result := Some r |} ->
        truthy (dollar_err r) || truthy (errmsg r) = true ->
        saslContinueCallback c db serverSignature reply
        = (Called (Some (ServerError r)) ResUndefined, c)).
Proof.
  unfold saslContinueCallback, resolveError. split.
  - intros e He. by rewrite He.
  - intros r He Hr Herr. rewrite He, Hr. cbn [result]. by rewrite Herr.
Qed.

(** X13. [prepare] stores the nonce it is given, and the [saslStart] of
    a conversation run with the prepared context is the command
    [prepare] put into the handshake, sent to the [$cmd] collection of
    the database [prepare] named.  When no random bytes are available
    the context is left as it was. *)
Theorem prepare_then_executeScram {HandshakeDocument : Type} (m : CryptoMethod)
    (handshake : HandshakeDocument) (authContext : AuthContext) (st : HICache)
    (n : Buffer) (e : UniversalError) :
  snd (fst (prepare m handshake authContext (RandomFailed e))) = authContext
  /\ exists warned prepared request,
       prepare m handshake authContext (RandomNonce n)
       = (warned, prepared, PrepareDone request)
       /\ nonce prepared = Some n
       /\ handshakeDoc request = handshake
       /\ exists cmds,
            sent (snd (fst (executeScram m prepared st)))
            = sent (connection authContext)
                ++ (speculativeDb request +:+ ".$cmd", speculativeCommand request) :: cmds.
Proof.
  split; [done |]. unfold prepare.
  eexists _, _, _. split; [reflexivity |]. split; [done |]. split; [done |].
  cbn [speculativeDb speculativeCommand credentials].
  set (prepared := {| connection := _; credentials := _; nonce := _; response := _ |}).
  assert (Hauth : auth m (with_connection prepared (connection prepared)) st = auth m prepared st)
    by done.
  destruct (auth_trace m {| connection := connection authContext;
                            credentials := credentials authContext;
                            nonce := Some n; response := None |} st)
    as [_ Hfull].
  destruct (Hfull n ltac:(done) eq_refl) as (cmds & id & Hsent & _).
  exists cmds. cbv zeta in Hsent. unfold auth in Hsent. cbn [response] in Hsent.
  unfold cmd_ns in Hsent. cbn [credentials connection] in Hsent.
  rewrite <- Hsent. subst prepared. unfold executeScram.
  cbn [nonce connection credentials]. unfold with_connection.
  cbn [nonce connection credentials response].
  destruct (command _ _ _) as [c1 reply].
  destruct (resolveError _ _) as [[err|]|err]; [done | | done].
  destruct (reply_result _) as [[[r|]]|]; [| done | done].
  cbn [result]. unfold continueScramConversation.
  by cbn [nonce connection credentials].
Qed.

(** X14. With SHA-1 the salted password is derived, and cached, for the
    MD5 digest of [<user>:mongo:<password>] where [<user>] is the
    escaped user name, the one sent in the [n=] attribute; the cache the
    step leaves is the cache of that call of [HI]. *)
Theorem sha1_digest_of_escaped_username (serverFirst : Document)
    (authContext : AuthContext) (st : HICache) (n : Buffer) (p : Payload)
    (rnonce salt : string) :
  nonce authContext = Some n ->
  password (credentials authContext) <> "" ->
  payload serverFirst = Some p ->
  weak_iterations (server_iterations p) = false ->
  dict_get (server_first_dict p) "r" = Some rnonce ->
  String.prefix "nonce" rnonce = false ->
  dict_get (server_first_dict p) "s" = Some salt ->
  let user := cleanUsername (username (credentials authContext)) in
  let digest := md5_hex (user +:+ ":mongo:" +:+ password (credentials authContext)) in
  snd (continueScramConversation sha1 serverFirst authContext st)
  = snd (HI st digest (from_base64 salt) (server_iterations p) sha1).
Proof.
  intros Hn Hpass Hp Hweak Hr Hprefix Hs. cbv zeta.
  unfold server_iterations, server_first_dict in *.
  unfold continueScramConversation, processPassword, passwordDigest. rewrite Hn, Hp.
  destruct (password (credentials authContext)) as [|c pass] eqn:Hpw; [done |].
  cbn [String.length Nat.eqb].
  destruct p as [b|b]; cbn [payload_bytes] in *; rewrite Hweak, Hr, Hprefix, Hs.
  all: destruct (HI _ _ _ _ _) as [[sp|err] st1]; [| done].
  all: destruct (command _ _ _) as [c1 reply].
  all: by destruct (saslContinueCallback _ _ _ _).
Qed.

End TraceFacts.

Lemma auth_trace_witness :
  exists cmds,
    sent (snd (fst (@auth Example.runtime sha256 MoreRuns.speculative Example.empty_cache)))
    = sent (connection MoreRuns.speculative) ++ cmds
    /\ continue_trace (cmd_ns MoreRuns.speculative) (Some 1) cmds.
Proof.
  exact (proj1 (@auth_trace Example.runtime sha256 MoreRuns.speculative Example.empty_cache)
           _ _ eq_refl eq_refl).
Defined.

Lemma executeScram_reply_error_witness :
  nonce MoreRuns.on_closed = Some Example.client_nonce
  /\ @executeScram Example.runtime sha1 MoreRuns.on_closed Example.empty_cache
     = (Called (Some (TransportError "connection closed")) ResUndefined,
        {| sent := [(cmd_ns MoreRuns.on_closed,
                     makeFirstMessage sha1 (credentials MoreRuns.on_closed)
                       Example.client_nonce)];
           server := MoreRuns.closed |},
        Example.empty_cache).
Proof.
  split; [reflexivity |].
  exact (proj1 (@executeScram_reply_error Example.runtime sha1 MoreRuns.on_closed
                  Example.empty_cache Example.client_nonce eq_refl)
           "connection closed" eq_refl).
Defined.

Lemma saslContinue_reply_error_witness :
  @saslContinueCallback Example.runtime (connection MoreRuns.on_closed) "admin" [1; 2; 3]
    (MoreRuns.closed [])
  = (Called (Some (TransportError "connection closed")) ResUndefined,
     connection MoreRuns.on_closed).
Proof.
  exact (proj1 (@saslContinue_reply_error Example.runtime (connection MoreRuns.on_closed)
                  "admin" [1; 2; 3] (MoreRuns.closed []))
           "connection closed" eq_refl).
Defined.

Lemma sha1_digest_of_escaped_username_witness :
  password (credentials MoreRuns.full) <> ""
  /\ snd (@continueScramConversation Example.runtime sha1
            (Example.doc MoreRuns.first_text None) MoreRuns.full Example.empty_cache)
     = snd (@HI Example.runtime Example.empty_cache
              (@md5_hex Example.runtime "user:mongo:pencil")
              (@from_base64 Example.runtime "QSXCR+Q6sek8bf92") (Num 4096) sha1).
Proof.
  split; [discriminate |].
  etransitivity.
  - refine (@sha1_digest_of_escaped_username Example.runtime
              (Example.doc MoreRuns.first_text None) MoreRuns.full Example.empty_cache
              Example.client_nonce (PayloadBinary (utf8_encode MoreRuns.first_text))
              "fyko+d2lbbFgONRv9qkxdawL3rfcNHYJY1ZVvWVs7j" "QSXCR+Q6sek8bf92"
              _ _ _ _ _ _ _).
    + reflexivity.
    + discriminate.
    + reflexivity.
    + vm_compute; reflexivity.
    + vm_compute; reflexivity.
    + reflexivity.
    + vm_compute; reflexivity.
  - vm_compute; reflexivity.
Defined.

(** * Command monitoring events *)

Section EventFacts.
Import Events.






Lemma head_set (o : list (string * Value)) (k : string) (v : Value) :
  o <> [] -> fst <$> head (set o k v) = fst <$> head o.
Proof.
  destruct o as [|[k' v'] o]; [done |]. intros _. simpl.
  destruct (String.eqb k' k) eqn:Hk; [| done].
  by apply String.eqb_eq in Hk as ->.
Qed.

Lemma set_nonempty (o : list (string * Value)) (k : string) (v : Value) :
  set o k v <> [].
Proof. destruct o as [|[k' v'] o]; simpl; [done |]. by destruct (String.eqb k' k). Qed.

Lemma head_assign_defined (o : list (string * Value)) (k : string) (v : Value) :
  o <> [] ->
  assign_defined o k v <> [] /\ fst <$> head (assign_defined o k v) = fst <$> head o.
Proof.
  intros Ho. unfold assign_defined. destruct (defined v); [| done].
  split; [apply set_nonempty | by apply head_set].
Qed.

Lemma head_assign_truthy (o : list (string * Value)) (k : string) (v : Value) :
  o <> [] ->
  assign_truthy o k v <> [] /\ fst <$> head (assign_truthy o k v) = fst <$> head o.
Proof.
  intros Ho. unfold assign_truthy. destruct (truthy v); [| done].
  split; [apply set_nonempty | by apply head_set].
Qed.

Lemma fold_left_head {A : Type} (step : list (string * Value) -> A -> list (string * Value))
    (l : list A) (o : list (string * Value)) :
  (forall o x, o <> [] -> step o x <> [] /\ fst <$> head (step o x) = fst <$> head o) ->
  o <> [] ->
  fold_left step l o <> [] /\ fst <$> head (fold_left step l o) = fst <$> head o.
Proof.
  intros Hstep. revert o. induction l as [|x l IH]; intros o Ho; [done |].
  simpl. destruct (Hstep o x Ho) as [Hne Hhead].
  destruct (IH _ Hne) as [Hne' Hhead']. split; [done | congruence].
Qed.

(** The first key of a command does not move when the legacy options
    are added. *)
Lemma head_legacy_options (q : Query) (o : list (string * Value)) :
  o <> [] -> fst <$> head (legacy_options q o) = fst <$> head o.
Proof.
  intros Ho. unfold legacy_options.
  destruct (fold_left_head
              (fun result kn => assign_defined result (snd kn) (field q (fst kn)))
              LEGACY_FIND_OPTIONS_MAP o) as [Hne1 Hh1];
    [intros; by apply head_assign_defined | done |].
  destruct (fold_left_head (fun result key => assign_truthy result key (field q key))
              OP_QUERY_KEYS _ ltac:(intros; by apply head_assign_truthy) Hne1)
    as [Hne2 Hh2].
  destruct (head_assign_defined _ "limit" (pre32Limit q) Hne2) as [_ Hh3].
  congruence.
Qed.

Lemma head_legacy_find (q : Query) :
  legacy_find q <> [] /\ fst <$> head (legacy_find q) = Some "find".
Proof.
  unfold legacy_find.
  by apply (fold_left_head
              (fun result kn => assign_defined result (snd kn) (prop (query q) (fst kn))));
    [intros; by apply head_assign_defined |].
Qed.

(** X15. The database of a command is the text before the first dot of
    its namespace and the collection is the text between the first and
    the second dot: a collection name that contains a dot is cut at that
    dot, and a namespace without a dot has no collection. *)
Theorem namespace_parts (command : CommandType) (db coll rest : string) :
  occurs "."%char db = false -> occurs "."%char coll = false ->
  (command_ns command = db ->
     databaseName command = db /\ collectionName command = None)
  /\ (command_ns command = db +:+ "." +:+ coll ->
        databaseName command = db /\ collectionName command = Some coll)
  /\ (command_ns command = db +:+ "." +:+ coll +:+ "." +:+ rest ->
        databaseName command = db /\ collectionName command = Some coll).
Proof.
  intros Hdb Hcoll. unfold databaseName, collectionName.
  split; [| split]; intros ->.
  - by rewrite (split_absent _ _ Hdb).
  - change (db +:+ "." +:+ coll) with (db +:+ String "."%char coll).
    by rewrite split_app, (split_absent _ _ Hdb), (split_absent _ _ Hcoll).
  - change (db +:+ "." +:+ coll +:+ "." +:+ rest)
      with (db +:+ String "."%char (coll +:+ String "."%char rest)).
    rewrite !split_app, (split_absent _ _ Hdb), (split_absent _ _ Hcoll).
    by destruct (split_cons "."%char rest) as (x & xs & ->).
Qed.

Lemma namespace_parts_witness :
  occurs "."%char "test" = false /\ occurs "."%char "system" = false
  /\ collectionName (Msg "test.system.users" 1 VNull) = Some "system".
Proof.
  split; [reflexivity |]. split; [reflexivity |].
  exact (proj2 (proj2 (proj2 (namespace_parts (Msg "test.system.users" 1 VNull)
                                "test" "system" "users" eq_refl eq_refl)) eq_refl)).
Defined.

(** X16. The name of an extracted command: [getMore] for a [GetMore],
    [killCursors] for a [KillCursor]; for a legacy query (a [Query] whose
    [query.$query] is set) outside [admin.$cmd] it is [explain] when
    [$explain] is set and [find] otherwise, whatever [$query] holds. *)
Theorem commandName_by_kind (first_own_key : Query -> option string)
    (command : CommandType) :
  (forall ns id c n, command = GetMore ns id c n ->
     extractCommandName first_own_key (extractCommand command) = Normal (Some "getMore"))
  /\ (forall ns id c, command = KillCursor ns id c ->
        extractCommandName first_own_key (extractCommand command)
        = Normal (Some "killCursors"))
  /\ (forall q, command = IsQuery q ->
        truthy (query q) = true -> truthy (prop (query q) "$query") = true ->
        ns q <> "admin.$cmd" ->
        extractCommandName first_own_key (extractCommand command)
        = Normal (Some (if truthy (prop (query q) "$explain") then "explain" else "find"))).
Proof.
  split; [by intros ns id c n -> | split; [by intros ns id c -> |]].
  intros q -> Hq Hquery Hns. unfold extractCommand. rewrite Hq, Hquery.
  apply String.eqb_neq in Hns. rewrite Hns. cbn [andb].
  destruct (truthy (prop (query q) "$explain")); [done |].
  unfold extractCommandName. cbn [own_props].
  destruct (head_legacy_find q) as [Hne Hhead].
  by rewrite (head_legacy_options q _ Hne), Hhead.
Qed.

Lemma commandName_by_kind_witness :
  let q := {| ns := "test.$cmd"; requestId := 7;
              query := VObject [("$query", VObject [("saslStart", VNumber 1)])];
              numberToSkip := VNumber 0; numberToReturn := VNumber (-1);
              returnFieldsSelector := VUndefined; tailable := VUndefined;
              oplogReplay := VUndefined; noCursorTimeout := VUndefined;
              awaitData := VUndefined; partial := VUndefined; exhaust := VUndefined;
              pre32Limit := VUndefined |} in
  ns q <> "admin.$cmd"
  /\ extractCommandName (fun _ => None) (extractCommand (IsQuery q)) = Normal (Some "find").
Proof.
  intros q. split; [discriminate |].
  exact (proj2 (proj2 (commandName_by_kind (fun _ => None) (IsQuery q))) q eq_refl
           eq_refl eq_refl ltac:(discriminate)).
Defined.

(** X17. For a command whose extracted document begins with one of the
    sensitive names, the succeeded event carries [{}] for the reply and
    the failed event [{}] for the failure, whatever the server sent; the
    started event has [commandObj] equal to [{name: true}] and still
    holds the whole command in [command]. *)
Theorem sensitive_command_events {E : Type} (first_own_key : Query -> option string)
    (calculateDurationInMs : Z -> Z) (pool : Pool) (command : CommandType)
    (reply : CommandResult) (error : E) (started : Z)
    (name : string) (v : Value) (rest : list (string * Value)) :
  sensitive (Some name) = true ->
  extractCommand command = OfValue (VObject ((name, v) :: rest)) ->
  exists s ok ko,
    new_CommandStartedEvent first_own_key pool command = Normal s
    /\ started_commandObj s = Some [(name, VBool true)]
    /\ started_command s = OfValue (VObject ((name, v) :: rest))
    /\ new_CommandSucceededEvent first_own_key calculateDurationInMs pool command
         reply started = Normal ok
    /\ succeeded_reply ok = Empty
    /\ new_CommandFailedEvent first_own_key calculateDurationInMs pool command
         error started = Normal ko
    /\ failed_failure ko = Empty.
Proof.
  intros Hs Hcmd.
  unfold new_CommandStartedEvent, new_CommandSucceededEvent, new_CommandFailedEvent,
    maybeRedact.
  rewrite Hcmd. cbn [extractCommandName own_props head fmap option_fmap option_map fst].
  rewrite Hs. eexists _, _, _. repeat split.
Qed.

Lemma sensitive_command_events_witness :
  let start := VObject [("saslStart", VNumber 1); ("mechanism", VString "SCRAM-SHA-1")] in
  exists ok,
    new_CommandSucceededEvent (fun _ => None) (fun t => 5 - t)
      {| address := "localhost:27017"; id := Some (VNumber 3) |}
      (Msg "admin.$cmd" 1 start)
      {| message := {| cursorId := VNumber 0; documents := VArray [] |};
         result := VObject [("payload", VString "r=abc")] |} 2
    = Normal ok
    /\ succeeded_reply ok = Empty.
Proof.
  intros start.
  destruct (@sensitive_command_events unit (fun _ => None) (fun t => 5 - t)
              {| address := "localhost:27017"; id := Some (VNumber 3) |}
              (Msg "admin.$cmd" 1 start)
              {| message := {| cursorId := VNumber 0; documents := VArray [] |};
                 result := VObject [("payload", VString "r=abc")] |} tt 2
              "saslStart" (VNumber 1) [("mechanism", VString "SCRAM-SHA-1")]
              eq_refl eq_refl)
    as (s & ok & ko & _ & _ & _ & Hok & Hreply & _).
  exists ok. by split.
Defined.

(** X18. A sensitive command wrapped as a legacy query ([query.$query]
    holds it, [$explain] is not set) is recognised only in [admin.$cmd]:
    there the event has its name and the reply is [{}]; in any other
    namespace the command counts as a [find] and the succeeded event
    carries the reply. *)
Theorem legacy_wrapped_redaction (first_own_key : Query -> option string)
    (calculateDurationInMs : Z -> Z) (pool : Pool) (q : Query)
    (reply : CommandResult) (started : Z) (qf : list (string * Value))
    (name : string) (v : Value) (rest : list (string * Value)) :
  query q = VObject qf ->
  get qf "$query" = VObject ((name, v) :: rest) ->
  truthy (get qf "$explain") = false ->
  sensitive (Some name) = true ->
  exists ev,
    new_CommandSucceededEvent first_own_key calculateDurationInMs pool (IsQuery q)
      reply started = Normal ev
    /\ (ns q = "admin.$cmd" ->
        succeeded_commandName ev = Some name /\ succeeded_reply ev = Empty)
    /\ (ns q <> "admin.$cmd" ->
        succeeded_commandName ev = Some "find"
        /\ succeeded_reply ev = Kept (extractReply (IsQuery q) reply)).
Proof.
  intros Hq Hquery Hexplain Hs.
  unfold new_CommandSucceededEvent, extractCommand.
  rewrite Hq. cbn [truthy prop andb]. rewrite Hquery, Hexplain. cbn [truthy].
  unfold extractCommandName. cbn [own_props].
  destruct (String.eqb (ns q) "admin.$cmd") eqn:Hns.
  - rewrite head_legacy_options by done. cbn [head fmap option_fmap option_map fst].
    eexists. split; [reflexivity |]. cbn [succeeded_commandName succeeded_reply].
    split; [intros _ | by intros Hne; apply String.eqb_eq in Hns].
    split; [done |]. unfold maybeRedact. by rewrite Hs.
  - destruct (head_legacy_find q) as [Hne Hhead].
    rewrite (head_legacy_options q _ Hne), Hhead.
    eexists. split; [reflexivity |]. cbn [succeeded_commandName succeeded_reply].
    split; [by intros Heq; apply String.eqb_neq in Hns | intros _].
    split; [done |]. by unfold maybeRedact.
Qed.


Lemma legacy_wrapped_redaction_witness :
  ns EventRuns.wrapped_saslStart <> "admin.$cmd"
  /\ exists ev,
       new_CommandSucceededEvent (fun _ => None) (fun t => 5 - t) EventRuns.pool
         (IsQuery EventRuns.wrapped_saslStart) EventRuns.server_reply 2 = Normal ev
       /\ succeeded_commandName ev = Some "find"
       /\ succeeded_reply ev
          = Kept (extractReply (IsQuery EventRuns.wrapped_saslStart) EventRuns.server_reply).
Proof.
  split; [discriminate |].
  destruct (legacy_wrapped_redaction (fun _ => None) (fun t => 5 - t) EventRuns.pool
              EventRuns.wrapped_saslStart EventRuns.server_reply 2
              _ "saslStart" (VNumber 1) [] eq_refl eq_refl eq_refl eq_refl)
    as (ev & Hev & _ & Hother).
  exists ev. split; [exact Hev |]. apply Hother. discriminate.
Defined.


End EventFacts.

(** * The wire protocol [command] *)

Section WireFacts.
Import WireCommand.

(** X20. A command goes to [_cryptCommand] exactly when the server has
    an auto-encrypter and a wire version of 8 or more; it is refused
    with the auto-encryption error exactly when the server has an
    auto-encrypter and a wire version other than 0 below 8.  In every
    other case it goes to [_command] unencrypted: also when an
    auto-encrypter is set and the wire version is 0 or unknown. *)
Theorem command_dispatch {AutoEncrypter Document CommandOptions Callback : Type}
    (maxWireVersion : Server AutoEncrypter -> option Z) (no_options : CommandOptions)
    (server : Server AutoEncrypter) (ns : string) (cmd : Document)
    (options : OptionsArgument CommandOptions Callback) (callback : option Callback) :
  let out := command maxWireVersion no_options server ns (Some cmd) options callback in
  ((exists o c, out = ToCryptCommand server ns cmd o c)
   <-> autoEncrypter server <> None
       /\ exists v, maxWireVersion server = Some v /\ 8 <= v)
  /\ ((exists c, out = CallbackError c AutoEncryptionVersion)
      <-> autoEncrypter server <> None
          /\ exists v, maxWireVersion server = Some v /\ v <> 0 /\ v < 8)
  /\ ((exists o c, out = ToCommand server ns cmd o c)
      <-> autoEncrypter server = None
          \/ maxWireVersion server = None
          \/ maxWireVersion server = Some 0).
Proof.
  cbv zeta.
  set (c' := match options with IsCallback f => Some f | _ => callback end).
  set (o' := match options with IsOptions o => o | _ => no_options end).
  assert (Hout :
    command maxWireVersion no_options server ns (Some cmd) options callback
    = match maxWireVersion server, autoEncrypter server with
      | Some v, Some _ =>
          if v =? 0 then ToCommand server ns cmd o' c'
          else if v <? 8 then CallbackError c' AutoEncryptionVersion
               else ToCryptCommand server ns cmd o' c'
      | _, _ => ToCommand server ns cmd o' c'
      end).
  { unfold command, isClientEncryptionEnabled. subst c' o'.
    destruct options; destruct (maxWireVersion server) as [v|];
      destruct (autoEncrypter server); try destruct (v =? 0); done. }
  rewrite Hout. clear Hout.
  destruct (maxWireVersion server) as [v|]; destruct (autoEncrypter server) as [a|].
  - destruct (Z.eqb_spec v 0) as [-> | Hv0]; [| destruct (Z.ltb_spec v 8) as [Hv8 | Hv8]].
    + split; [| split]; split.
      * by intros (? & ? & [=]).
      * intros (_ & v' & [= <-] & ?). lia.
      * by intros (? & [=]).
      * intros (_ & v' & [= <-] & ? & _). done.
      * intros _. by right; right.
      * intros _. by eexists _, _.
    + split; [| split]; split.
      * by intros (? & ? & [=]).
      * intros (_ & v' & [= <-] & ?). lia.
      * intros _. split; [done |]. by exists v.
      * intros _. by eexists.
      * by intros (? & ? & [=]).
      * intros [[=] | [[=] | [= ->]]]. done.
    + split; [| split]; split.
      * intros _. split; [done |]. by exists v.
      * intros _. by eexists _, _.
      * by intros (? & [=]).
      * intros (_ & v' & [= <-] & _ & ?). lia.
      * by intros (? & ? & [=]).
      * intros [[=] | [[=] | [= ->]]]. lia.
  - split; [| split]; split.
    + by intros (? & ? & [=]).
    + by intros (Ha & _).
    + by intros (? & [=]).
    + by intros (Ha & _).
    + intros _. by left.
    + intros _. by eexists _, _.
  - split; [| split]; split.
    + by intros (? & ? & [=]).
    + by intros (_ & v' & [=] & _).
    + by intros (? & [=]).
    + by intros (_ & v' & [=] & _).
    + intros _. by right; left.
    + intros _. by eexists _, _.
  - split; [| split]; split.
    + by intros (? & ? & [=]).
    + by intros (Ha & _).
    + by intros (? & [=]).
    + by intros (Ha & _).
    + intros _. by left.
    + intros _. by eexists _, _.
Qed.

(** A missing command is refused with the error that names it,
    before the server is looked at; the callback is the fourth argument
    when that one is a function. *)
Lemma command_null {AutoEncrypter Document CommandOptions Callback : Type}
    (maxWireVersion : Server AutoEncrypter -> option Z) (no_options : CommandOptions)
    (server : Server AutoEncrypter) (ns : string)
    (options : OptionsArgument CommandOptions Callback) (callback : option Callback) :
  @command AutoEncrypter Document CommandOptions Callback maxWireVersion no_options
    server ns None options callback
  = CallbackError
      match options with
      | IsCallback f => Some f
      | _ => callback
      end NoCursor.
Proof. by destruct options. Qed.

(** X21. When a server is known by its [ismaster] reply alone or by its
    description alone, support for [OP_MSG] brings support for
    sessions. *)
Theorem supportsOpMsg_hasSessionSupport {AutoEncrypter : Type}
    (server : Server AutoEncrypter) :
  ismaster server = None \/ description server = None ->
  supportsOpMsg server = true ->
  hasSessionSupport (Some server) = true.
Proof.
  unfold supportsOpMsg, hasSessionSupport.
  intros [Hi | Hd]; [rewrite Hi | rewrite Hd].
  - destruct (description server) as [d|]; [| done]. by intros [? _]%andb_true_iff.
  - destruct (ismaster server) as [i|]; [| done]. by intros [? _]%andb_true_iff.
Qed.

Lemma command_dispatch_witness :
  let server : Server unit :=
    {| ismaster := Some {| description_maxWireVersion := Some 0;
                           nodejs_mock_server := false |};
       description := None;
       autoEncrypter := Some tt |} in
  exists o c,
    @command unit string unit unit (fun _ => Some 0) tt server "test.$cmd"
      (Some "insert") (IsOptions tt) (Some tt)
    = ToCommand server "test.$cmd" "insert" o c.
Proof.
  intros server.
  apply (proj2 (proj2 (proj2 (@command_dispatch unit string unit unit (fun _ => Some 0) tt
                                server "test.$cmd" "insert" (IsOptions tt) (Some tt))))).
  right. right. reflexivity.
Defined.

Lemma supportsOpMsg_hasSessionSupport_witness :
  let server : Server unit :=
    {| ismaster := Some {| description_maxWireVersion := Some 8;
                           nodejs_mock_server := false |};
       description := None;
       autoEncrypter := None |} in
  (ismaster server = None \/ description server = None)
  /\ supportsOpMsg server = true
  /\ hasSessionSupport (Some server) = true.
Proof.
  intros server. split; [by right |]. split; [reflexivity |].
  exact (supportsOpMsg_hasSessionSupport server (or_intror eq_refl) eq_refl).
Defined.

End WireFacts.
